(** * Airtable-ORM: the [Field] class of [src/fields/Field.js]

    A shallow embedding of the class and of the part of the JavaScript
    run time it relies on, followed by the properties of the class.

    Scope of the embedding.
    - Values are [undefined], [null], booleans, numbers (IEEE-754 binary64,
      Rocq's primitive floats), strings and references to heap objects:
      arrays, plain objects (which inherit from [Object.prototype]),
      [Record] instances and instances of [Field] (or of a class
      extending it).  Functions, symbols and big integers are not values
      of the model.
    - Objects live in a store and are shared by reference; an object can be
      frozen.  A [Field] instance is an object whose own properties are the
      slots [_name], [_config], [_type], [_value] and [_originalValue_].
    - Own properties are data, and no value of the model is a function.
      So an own property [toString] of a plain object (or of a [Record])
      shadows the inherited method and the object has no text any more:
      rendering it raises a [TypeError]; and an own property [constructor]
      of a plain object is what [object.constructor] answers.  An own
      [valueOf] or [toJSON] changes nothing, since what is not callable is
      passed over.  Arrays and [Field] instances are taken to carry no own
      property that hides a method the class calls on them ([toString],
      [join], [map], [constructor]), and a [Record] is an object whose
      [constructor] is the class [Record].
    - An object is either frozen or open to every assignment: sealed and
      non-extensible objects are not objects of the model.
    - The class body is strict-mode code: an assignment that cannot be
      carried out raises a [TypeError].
    - The decimal rendering of a number, the reading of a string as a
      number and the [stringify] method of the external [Record] class are
      parameters of the development (class [Runtime]). *)

From Stdlib Require Import ZArith Ascii String List Bool Lia Floats.
From stdpp Require Import base option list strings pretty sorting.

Set Default Proof Using "Type".

(** ** Values, objects and the store *)

Abbreviation loc := nat (only parsing).

Inductive value :=
| VUndefined
| VNull
| VBool (b : bool)
| VNum (n : float)
| VStr (s : string)
| VRef (l : loc).

(** What an object is an instance of.  [KField cls] is an instance of
    [Field] or of a class [cls] that extends it. *)
Inductive kind :=
| KObject
| KArray
| KRecord
| KField (cls : string).

(** [o_elems] are the elements of an array (empty for the other kinds),
    [o_props] the own enumerable string-keyed properties in enumeration
    order. *)
Record obj := mkObj {
  o_kind : kind;
  o_elems : list value;
  o_props : list (string * value);
  o_frozen : bool
}.

Record js_error := mkError {
  ename : string;
  emessage : string
}.

(** What was written to the console: the stack of an error
    ([console.error(error.stack)]), a text on the error stream, a warning. *)
Inductive log_entry :=
| LogStack (e : js_error)
| LogError (s : string)
| LogWarn (s : string).

Record state := mkState {
  heap : list obj;
  console : list log_entry
}.

Definition empty_state : state := mkState [] [].

(** The result of [typeof]. *)
Inductive jstype := TUndefined | TObject | TBoolean | TNumber | TString.

Definition jstype_eqb (a b : jstype) : bool :=
  match a, b with
  | TUndefined, TUndefined | TObject, TObject | TBoolean, TBoolean
  | TNumber, TNumber | TString, TString => true
  | _, _ => false
  end.

Definition jstype_name (t : jstype) : string :=
  match t with
  | TUndefined => "undefined"
  | TObject => "object"
  | TBoolean => "boolean"
  | TNumber => "number"
  | TString => "string"
  end.

Definition typeof (v : value) : jstype :=
  match v with
  | VUndefined => TUndefined
  | VNull => TObject
  | VBool _ => TBoolean
  | VNum _ => TNumber
  | VStr _ => TString
  | VRef _ => TObject
  end.

(** [a === b]: numbers by IEEE equality (so [NaN] differs from itself and
    the two zeros are equal), objects by reference. *)
Definition strict_eq (a b : value) : bool :=
  match a, b with
  | VUndefined, VUndefined => true
  | VNull, VNull => true
  | VBool x, VBool y => Bool.eqb x y
  | VNum x, VNum y => PrimFloat.eqb x y
  | VStr x, VStr y => String.eqb x y
  | VRef x, VRef y => Nat.eqb x y
  | _, _ => false
  end.

(** [typeof v === 'number' && isNaN(v)] *)
Definition is_NaN (v : value) : bool :=
  match v with
  | VNum x => PrimFloat.is_nan x
  | _ => false
  end.

(** [ToBoolean] *)
Definition truthy (v : value) : bool :=
  match v with
  | VUndefined | VNull => false
  | VBool b => b
  | VNum x => negb (PrimFloat.is_zero x || PrimFloat.is_nan x)
  | VStr s => negb (String.eqb s "")
  | VRef _ => true
  end.

Definition kind_of (h : list obj) (v : value) : option kind :=
  match v with
  | VRef l => o_kind <$> h !! l
  | _ => None
  end.

(** [Array.isArray(v)] *)
Definition is_array (h : list obj) (v : value) : bool :=
  match kind_of h v with
  | Some KArray => true
  | _ => false
  end.

(** [v instanceof Field] *)
Definition instanceof_Field (h : list obj) (v : value) : bool :=
  match kind_of h v with
  | Some (KField _) => true
  | _ => false
  end.

(** [Object.isFrozen(v)]: a value that is not an object is frozen. *)
Definition is_frozen (h : list obj) (v : value) : bool :=
  match v with
  | VRef l => match h !! l with Some o => o_frozen o | None => true end
  | _ => true
  end.

(** ** Own properties *)

Fixpoint own_get (key : string) (props : list (string * value)) : value :=
  match props with
  | [] => VUndefined
  | (k, v) :: rest => if String.eqb k key then v else own_get key rest
  end.

Fixpoint own_has (key : string) (props : list (string * value)) : bool :=
  match props with
  | [] => false
  | (k, _) :: rest => String.eqb k key || own_has key rest
  end.

(** Assignment to an own property that exists: it keeps its place.  (A
    key that is not there is put last; [own_put] below places new keys.) *)
Fixpoint own_set (key : string) (v : value) (props : list (string * value))
  : list (string * value) :=
  match props with
  | [] => [(key, v)]
  | (k, w) :: rest =>
      if String.eqb k key then (k, v) :: rest else (k, w) :: own_set key v rest
  end.

(** The own property [key] of the object at [l]; [undefined] if absent. *)
Definition slot (h : list obj) (l : loc) (key : string) : value :=
  match h !! l with
  | Some o => own_get key (o_props o)
  | None => VUndefined
  end.

(** ** Computations: a store, and three ways to end *)

Inductive outcome (A : Type) :=
| Ret (a : A) (s : state)
| Throw (e : js_error) (s : state)
| Exit (code : Z) (s : state).
Arguments Ret {A} a s.
Arguments Throw {A} e s.
Arguments Exit {A} code s.

Definition js (A : Type) : Type := state -> outcome A.

Definition ret {A} (a : A) : js A := fun s => Ret a s.

Definition bind {A B} (c : js A) (k : A -> js B) : js B :=
  fun s =>
    match c s with
    | Ret a s' => k a s'
    | Throw e s' => Throw e s'
    | Exit n s' => Exit n s'
    end.

Notation "x <- c ;; k" := (bind c (fun x => k))
  (at level 100, c at next level, right associativity).
Notation "c ;;; k" := (bind c (fun _ => k))
  (at level 100, right associativity).

Definition throw {A} (e : js_error) : js A := fun s => Throw e s.

(** [process.exit(code)] *)
Definition process_exit {A} (code : Z) : js A := fun s => Exit code s.

Definition get_heap : js (list obj) := fun s => Ret (heap s) s.

Definition log (e : log_entry) : js unit :=
  fun s => Ret tt (mkState (heap s) (console s ++ [e])).

(** A new object; its location is the next free one. *)
Definition new_object (o : obj) : js loc :=
  fun s => Ret (length (heap s)) (mkState (heap s ++ [o]) (console s)).

Definition alloc (o : obj) : js value :=
  l <- new_object o ;; ret (VRef l).

Definition update (l : loc) (f : obj -> obj) : js unit :=
  fun s => Ret tt (mkState (alter f l (heap s)) (console s)).

Definition when (b : bool) (c : js unit) : js unit :=
  if b then c else ret tt.

(** Results of the pure conversions, which can raise. *)
Inductive res (A : Type) :=
| Ok (a : A)
| Err (e : js_error).
Arguments Ok {A} a.
Arguments Err {A} e.

Definition res_bind {A B} (r : res A) (k : A -> res B) : res B :=
  match r with
  | Ok a => k a
  | Err e => Err e
  end.

Notation "x <~ r ;; k" := (res_bind r (fun x => k))
  (at level 100, r at next level, right associativity).

Definition lift {A} (f : list obj -> res A) : js A :=
  fun s =>
    match f (heap s) with
    | Ok a => Ret a s
    | Err e => Throw e s
    end.

Definition TypeError (msg : string) : js_error := mkError "TypeError" msg.
Definition RangeError (msg : string) : js_error := mkError "RangeError" msg.

(** ** The run time *)

(** What the development takes from the run time without defining it:
    [Number_toString] is the decimal rendering of a finite non-zero number
    ([Number::toString]), [StringToNumber] the reading of a string as a
    number, [Record_stringify] the call [record.stringify(null, 2)] on an
    instance of the external [Record] class. *)
Class Runtime := {
  Number_toString : float -> string;
  StringToNumber : string -> float;
  Record_stringify : list obj -> loc -> res string
}.

Definition dquote : ascii := "034"%char.
Definition newline : string := String "010"%char EmptyString.

(** [sep.join(parts)] on strings *)
Fixpoint join_with (sep : string) (parts : list string) : string :=
  match parts with
  | [] => ""
  | [p] => p
  | p :: rest => p +:+ sep +:+ join_with sep rest
  end.

(** [mapM] for [res], left to right *)
Fixpoint res_map {A B} (f : A -> res B) (l : list A) : res (list B) :=
  match l with
  | [] => Ok []
  | x :: rest => y <~ f x ;; ys <~ res_map f rest ;; Ok (y :: ys)
  end.

Section RunTime.
Context {RT : Runtime}.

(** [ToString] of a number *)
Definition number_to_string (x : float) : string :=
  if PrimFloat.is_nan x then "NaN"
  else if PrimFloat.is_zero x then "0"
  else if PrimFloat.eqb x PrimFloat.infinity then "Infinity"
  else if PrimFloat.eqb x PrimFloat.neg_infinity then "-Infinity"
  else Number_toString x.

(** The [value] getter of [Field] on the content of the slot [_value]
    (source line 73). *)
Definition normalize_value (v : value) : value :=
  if strict_eq v (VNum 0) || strict_eq v (VBool false) then v
  else if truthy v then v else VNull.

(** [v.toString()]: there is no such method on [undefined] and [null]. *)
Definition call_toString (rec : value -> res string) (v : value) : res string :=
  match v with
  | VUndefined | VNull =>
      Err (TypeError "Cannot read properties of null (reading 'toString')")
  | _ => rec v
  end.

(** [Field.prototype.toString] (source lines 131-133) on the properties of
    the instance, with [rec] for the conversions of the parts. *)
Definition Field_toString (rec : value -> res string)
    (props : list (string * value)) (includeName : value) : res string :=
  prefix <~ (if strict_eq includeName (VBool true)
             then n <~ rec (own_get "_name" props) ;; Ok (n +:+ ": ")
             else Ok "") ;;
  v <~ call_toString rec (normalize_value (own_get "_value" props)) ;;
  Ok (prefix +:+ v).

(** [ToString].  An array is joined with commas, [undefined] and [null]
    elements giving the empty string; a plain object (and a [Record]) is
    rendered by [Object.prototype.toString], unless a property [toString]
    of its own stands in the way: that one is not callable, [valueOf]
    answers with the object itself, and the conversion raises; a [Field]
    is rendered by its own
    [toString], whose parameter then takes its default [true].  The
    recursion is bounded by [fuel]; it runs out only on a structure that
    contains itself, where the specified algorithm does not terminate
    (engines then fail with a [RangeError], or cut a cyclic join short). *)
Fixpoint to_string_fuel (fuel : nat) (h : list obj) (v : value) : res string :=
  match fuel with
  | O => Err (RangeError "Maximum call stack size exceeded")
  | S n =>
      match v with
      | VUndefined => Ok "undefined"
      | VNull => Ok "null"
      | VBool true => Ok "true"
      | VBool false => Ok "false"
      | VNum x => Ok (number_to_string x)
      | VStr s => Ok s
      | VRef l =>
          match h !! l with
          | None => Ok "[object Object]"
          | Some o =>
              match o_kind o with
              | KArray =>
                  parts <~ res_map
                    (fun e => match e with
                              | VUndefined | VNull => Ok ""
                              | _ => to_string_fuel n h e
                              end) (o_elems o) ;;
                  Ok (join_with "," parts)
              | KObject | KRecord =>
                  if own_has "toString" (o_props o) then
                    Err (TypeError "Cannot convert object to primitive value")
                  else Ok "[object Object]"
              | KField _ =>
                  Field_toString (to_string_fuel n h) (o_props o) (VBool true)
              end
          end
      end
  end.

(** A chain of distinct objects is no longer than the store. *)
Definition depth_bound (h : list obj) : nat := S (S (length h)).

Definition to_string (h : list obj) (v : value) : res string :=
  to_string_fuel (depth_bound h) h v.

(** [ToNumber]; an object is first converted to a primitive, which for the
    objects of the model is its string. *)
Definition to_number (h : list obj) (v : value) : res float :=
  match v with
  | VUndefined => Ok PrimFloat.nan
  | VNull => Ok PrimFloat.zero
  | VBool true => Ok PrimFloat.one
  | VBool false => Ok PrimFloat.zero
  | VNum x => Ok x
  | VStr s => Ok (StringToNumber s)
  | VRef _ => s <~ to_string h v ;; Ok (StringToNumber s)
  end.

(** *** JSON.stringify *)

Definition hex_digit (n : nat) : ascii :=
  nth n (list_ascii_of_string "0123456789abcdef") "0"%char.

Definition json_escape (c : ascii) : string :=
  let n := nat_of_ascii c in
  if Nat.eqb n 34 then String "\"%char (String dquote EmptyString)
  else if Nat.eqb n 92 then "\\"
  else if Nat.eqb n 8 then "\b"
  else if Nat.eqb n 9 then "\t"
  else if Nat.eqb n 10 then "\n"
  else if Nat.eqb n 12 then "\f"
  else if Nat.eqb n 13 then "\r"
  else if Nat.ltb n 32 then
    "\u00" +:+ String (hex_digit (n / 16)) (String (hex_digit (n mod 16)) EmptyString)
  else String c EmptyString.

Fixpoint json_escape_all (s : string) : string :=
  match s with
  | EmptyString => EmptyString
  | String c rest => json_escape c +:+ json_escape_all rest
  end.

(** [QuoteJSONString] *)
Definition json_quote (s : string) : string :=
  String dquote (json_escape_all s) +:+ String dquote EmptyString.

(** The text of a non-empty array or object: compact without [gap],
    one member per line with it. *)
Definition json_wrap (opening closing gap indent : string) (parts : list string)
  : string :=
  match parts with
  | [] => opening +:+ closing
  | _ =>
      if String.eqb gap "" then
        opening +:+ join_with "," parts +:+ closing
      else
        opening +:+ newline +:+ indent +:+ gap
        +:+ join_with ("," +:+ newline +:+ indent +:+ gap) parts
        +:+ newline +:+ indent +:+ closing
  end.

(** [SerializeJSONProperty]: [None] is the result [undefined].  An element
    of an array that has no JSON text is written [null], a property that
    has none is left out.  Running out of fuel means that the structure
    contains itself, which [JSON.stringify] refuses. *)
Fixpoint json_fuel (fuel : nat) (h : list obj) (gap indent : string) (v : value)
  : res (option string) :=
  match fuel with
  | O => Err (TypeError "Converting circular structure to JSON")
  | S n =>
      match v with
      | VUndefined => Ok None
      | VNull => Ok (Some "null")
      | VBool true => Ok (Some "true")
      | VBool false => Ok (Some "false")
      | VNum x =>
          Ok (Some (if PrimFloat.is_finite x then number_to_string x else "null"))
      | VStr s => Ok (Some (json_quote s))
      | VRef l =>
          match h !! l with
          | None => Ok None
          | Some o =>
              match o_kind o with
              | KArray =>
                  parts <~ res_map
                    (fun e => t <~ json_fuel n h gap (indent +:+ gap) e ;;
                              Ok (default "null" t)) (o_elems o) ;;
                  Ok (Some (json_wrap "[" "]" gap indent parts))
              | _ =>
                  parts <~ res_map
                    (fun '(k, e) =>
                       t <~ json_fuel n h gap (indent +:+ gap) e ;;
                       Ok ((fun t => json_quote k +:+ ":"
                                     +:+ (if String.eqb gap "" then "" else " ")
                                     +:+ t) <$> t)) (o_props o) ;;
                  Ok (Some (json_wrap "{" "}" gap indent (omap id parts)))
              end
          end
      end
  end.

(** [JSON.stringify(v)] and [JSON.stringify(v, null, 2)] *)
Definition JSON_stringify (h : list obj) (v : value) : res (option string) :=
  json_fuel (depth_bound h) h "" "" v.

Definition JSON_stringify_2 (h : list obj) (v : value) : res (option string) :=
  json_fuel (depth_bound h) h "  " "" v.

(** [JSON.stringify] of a temporary array with the elements [elems], such
    as the sorted copy [[...a].sort()], which no one else can reach. *)
Definition JSON_stringify_elems (h : list obj) (elems : list value) : res string :=
  parts <~ res_map
    (fun e => t <~ json_fuel (depth_bound h) h "" "" e ;; Ok (default "null" t))
    elems ;;
  Ok (json_wrap "[" "]" "" "" parts).

(** *** Array.prototype.sort without a comparison function *)

(** The position of [x] among elements already in order: behind every
    element whose string is not greater, so that the sort is stable. *)
Fixpoint sort_insert (x : string * value) (l : list (string * value))
  : list (string * value) :=
  match l with
  | [] => [x]
  | y :: rest =>
      if String.leb (fst y) (fst x) then y :: sort_insert x rest
      else x :: y :: rest
  end.

Definition sort_keyed (l : list (string * value)) : list (string * value) :=
  fold_left (fun acc x => sort_insert x acc) l [].

Definition is_undefined (v : value) : bool := strict_eq v VUndefined.

(** [elems.sort()]: [undefined] elements go last, the others are ordered
    by their strings, compared code unit by code unit.  With fewer than
    two elements to order nothing is compared, so nothing is converted. *)
Definition sort_default (h : list obj) (elems : list value) : res (list value) :=
  let defined := filter (fun v => is_undefined v = false) elems in
  let undefs := filter (fun v => is_undefined v = true) elems in
  if Nat.leb (length defined) 1 then Ok (defined ++ undefs)
  else
    keyed <~ res_map (fun v => s <~ to_string h v ;; Ok (s, v)) defined ;;
    Ok (map snd (sort_keyed keyed) ++ undefs).

(** [[...v]] for an array [v]; the class spreads nothing else. *)
Definition spread (h : list obj) (v : value) : res (list value) :=
  match v with
  | VRef l =>
      match h !! l with
      | Some o =>
          match o_kind o with
          | KArray => Ok (o_elems o)
          | _ => Err (TypeError "object is not iterable")
          end
      | None => Err (TypeError "object is not iterable")
      end
  | _ => Err (TypeError "value is not iterable")
  end.

End RunTime.

(** ** Reading and writing properties *)

Definition read {A} (f : list obj -> A) : js A := fun s => Ret (f (heap s)) s.

(** A canonical array index: decimal digits without a leading zero, below
    [2^32 - 1]. *)
Fixpoint parse_digits (s : string) (acc : N) : option N :=
  match s with
  | EmptyString => Some acc
  | String c rest =>
      match Ascii.is_nat c with
      | Some d => parse_digits rest (acc * 10 + N.of_nat d)%N
      | None => None
      end
  end.

Definition array_index (key : string) : option nat :=
  match key with
  | EmptyString => None
  | String c rest =>
      if Ascii.eqb c "0"%char && negb (String.eqb rest "") then None
      else
        match parse_digits key 0 with
        | Some n => if (n <? 4294967295)%N then Some (N.to_nat n) else None
        | None => None
        end
  end.

(** A new own property: an array index is enumerated before the names and
    in ascending order, a name after everything else. *)
Fixpoint own_add (i : option nat) (key : string) (v : value)
    (props : list (string * value)) : list (string * value) :=
  match props with
  | [] => [(key, v)]
  | (k, w) :: rest =>
      match i with
      | None => (k, w) :: own_add i key v rest
      | Some n =>
          match array_index k with
          | Some m =>
              if Nat.ltb m n then (k, w) :: own_add i key v rest
              else (key, v) :: (k, w) :: rest
          | None => (key, v) :: (k, w) :: rest
          end
      end
  end.

Definition own_put (key : string) (v : value) (props : list (string * value))
  : list (string * value) :=
  if own_has key props then own_set key v props
  else own_add (array_index key) key v props.

(** Writing the element [i] of an array; the positions skipped when [i] is
    beyond the end are left [undefined]. *)
Definition set_elem (i : nat) (v : value) (elems : list value) : list value :=
  if Nat.ltb i (length elems) then <[i := v]> elems
  else elems ++ replicate (i - length elems) VUndefined ++ [v].

Definition with_props (f : list (string * value) -> list (string * value))
    (o : obj) : obj :=
  mkObj (o_kind o) (o_elems o) (f (o_props o)) (o_frozen o).

Definition with_elems (f : list value -> list value) (o : obj) : obj :=
  mkObj (o_kind o) (f (o_elems o)) (o_props o) (o_frozen o).

Definition freeze_obj (o : obj) : obj :=
  mkObj (o_kind o) (o_elems o) (o_props o) true.

(** [this.key = v] for an own data property [key] of the object at [l],
    in strict mode: a frozen object refuses the write. *)
Definition put_own (l : loc) (key : string) (v : value) : js unit :=
  h <- get_heap ;;
  match h !! l with
  | None => ret tt
  | Some o =>
      if o_frozen o then
        throw (TypeError ("Cannot assign to property '" +:+ key
                          +:+ "' of a frozen object"))
      else update l (with_props (own_put key v))
  end.

(** [Object.freeze(v)]: a value that is not an object is returned as it is. *)
Definition Object_freeze (v : value) : js value :=
  match v with
  | VRef l => update l freeze_obj ;;; ret v
  | _ => ret v
  end.

(** [v.key] for the data keys the class reads ([strict], [primary],
    [__record__], [__ignoreFieldErrors__], [table], [base], [name], [id]).
    Of these only [name] is an accessor of a [Field] instance; a primitive
    has none of them. *)
Definition get_member (h : list obj) (v : value) (key : string) : res value :=
  match v with
  | VUndefined | VNull =>
      Err (TypeError ("Cannot read properties of "
                      +:+ (if strict_eq v VNull then "null" else "undefined")
                      +:+ " (reading '" +:+ key +:+ "')"))
  | VRef l =>
      match h !! l with
      | Some o =>
          match o_kind o with
          | KField _ =>
              if String.eqb key "name" then Ok (own_get "_name" (o_props o))
              else Ok (own_get key (o_props o))
          | _ => Ok (own_get key (o_props o))
          end
      | None => Ok VUndefined
      end
  | _ => Ok VUndefined
  end.

(** The name of the class a value is an instance of: what
    [v.constructor.name] answers for a value that is neither [undefined]
    nor [null] and has no property [constructor] of its own. *)
Definition constructor_name (h : list obj) (v : value) : string :=
  match v with
  | VBool _ => "Boolean"
  | VNum _ => "Number"
  | VStr _ => "String"
  | VRef l =>
      match o_kind <$> h !! l with
      | Some KArray => "Array"
      | Some KRecord => "Record"
      | Some (KField cls) => cls
      | _ => "Object"
      end
  | _ => "Object"
  end.

(** [v.constructor.name] for a value that is neither [undefined] nor
    [null].  An own property [constructor] of a plain object is read in
    place of the inherited one, and [name] is then read from its value:
    that raises when the value is [undefined] or [null], and gives
    [undefined] when it has no such property. *)
Definition get_constructor_name (h : list obj) (v : value) : res value :=
  match v with
  | VRef l =>
      match h !! l with
      | Some o =>
          match o_kind o with
          | KObject =>
              if own_has "constructor" (o_props o)
              then get_member h (own_get "constructor" (o_props o)) "name"
              else Ok (VStr (constructor_name h v))
          | _ => Ok (VStr (constructor_name h v))
          end
      | None => Ok (VStr (constructor_name h v))
      end
  | _ => Ok (VStr (constructor_name h v))
  end.

(** ** The class [Field] *)

Section FieldClass.
Context {RT : Runtime}.

(** The slots of an instance, as the accessors read them. *)
Definition name_of (h : list obj) (this : loc) : value := slot h this "_name".
Definition type_of (h : list obj) (this : loc) : value := slot h this "_type".
Definition original_of (h : list obj) (this : loc) : value :=
  slot h this "_originalValue_".
Definition value_of (h : list obj) (this : loc) : value :=
  normalize_value (slot h this "_value").

(** [get _originalValue()] (lines 26-28) *)
Definition _originalValue_get (this : loc) : js value :=
  read (fun h => original_of h this).

(** [get config()] (lines 56-58): a field without a configuration answers
    with a new empty object each time. *)
Definition config_get (this : loc) : js value :=
  c <- read (fun h => slot h this "_config") ;;
  if truthy c then ret c else alloc (mkObj KObject [] [] false).

(** [get name()] (lines 60-62) *)
Definition name_get (this : loc) : js value := read (fun h => name_of h this).

(** [get record()] (lines 64-66) *)
Definition record_get (this : loc) : js value :=
  c <- config_get this ;;
  lift (fun h => get_member h c "__record__").

(** [get type()] (lines 68-70) *)
Definition type_get (this : loc) : js value := read (fun h => type_of h this).

(** [get value()] (lines 72-74) *)
Definition value_get (this : loc) : js value := read (fun h => value_of h this).

(** [this.config.key] *)
Definition config_member (this : loc) (key : string) : js value :=
  c <- config_get this ;;
  lift (fun h => get_member h c key).

(** [isPrimary()] (lines 127-129) *)
Definition isPrimary (this : loc) : js bool :=
  p <- config_member this "primary" ;;
  ret (strict_eq p (VBool true)).

(** [toString(includeName = true)] (lines 131-133) *)
Definition toString (this : loc) (includeName : value) : js string :=
  let includeName :=
    if is_undefined includeName then VBool true else includeName in
  lift (fun h =>
          match h !! this with
          | Some o => Field_toString (to_string h) (o_props o) includeName
          | None => Field_toString (to_string h) [] includeName
          end).

(** [_isRecord(object)] (lines 136-138); it raises where
    [object.constructor] has no [name] to read. *)
Definition _isRecord (h : list obj) (object : value) : res bool :=
  if jstype_eqb (typeof object) TObject && negb (strict_eq object VNull)
  then name <~ get_constructor_name h object ;;
       Ok (strict_eq name (VStr "Record"))
  else Ok false.

(** *** The diagnostics (lines 166-239) *)

(** What [_error] and [_warn] collect before they build their text
    (lines 167-180 and 211-224). *)
Record field_info := mkInfo {
  i_type : string;
  i_base : value;
  i_table : value;
  i_record : value;
  i_class : value;
  i_print : option string
}.

(** [this.record ? this.record.table ? this.record.table.key : undefined
    : undefined].  The getters are read again at every step in the source;
    they change nothing that these reads depend on. *)
Definition record_table_member (this : loc) (key : string) : js value :=
  r <- record_get this ;;
  if truthy r then
    t <- lift (fun h => get_member h r "table") ;;
    if truthy t then lift (fun h => get_member h t key) else ret VUndefined
  else ret VUndefined.

Definition record_id (this : loc) : js value :=
  r <- record_get this ;;
  if truthy r then lift (fun h => get_member h r "id") else ret VUndefined.

(** [rPrint] (lines 174-180).  A [Record] has the method [stringify];
    what only passes for one (an instance of a class of that name that
    extends [Field], a plain object whose [constructor] has that name)
    has not. *)
Definition print_received (this : loc) (received : value) : js (option string) :=
  h <- get_heap ;;
  record <- lift (fun h => _isRecord h received) ;;
  if record : bool then
    match kind_of h received, received with
    | Some KRecord, VRef l =>
        s <- lift (fun h => Record_stringify h l) ;; ret (Some s)
    | _, _ => throw (TypeError "received.stringify is not a function")
    end
  else if instanceof_Field h received then
    match received with
    | VRef l => s <- toString l (VBool false) ;; ret (Some s)
    | _ => ret None
    end
  else lift (fun h => JSON_stringify_2 h received).

(** Lines 167-180.  [className] stays [undefined] for a received value
    that is [undefined], [null] or [NaN]. *)
Definition collect_info (this : loc) (received : value) : js field_info :=
  t <- type_get this ;;
  h <- get_heap ;;
  let type := if is_undefined t then "UninitializedField"
              else constructor_name h (VRef this) in
  base <- record_table_member this "base" ;;
  table <- record_table_member this "name" ;;
  record <- record_id this ;;
  className <-
    (if negb (is_undefined received) && negb (strict_eq received VNull)
        && negb (is_NaN received)
     then lift (fun h => get_constructor_name h received)
     else ret VUndefined) ;;
  rPrint <- print_received this received ;;
  ret (mkInfo type base table record className rPrint).

(** The block between the two [=====FIELD INFO=====] lines, with the line
    that opens it (lines 183-192 and 227-236). *)
Definition info_block (this : loc) (received : value) (i : field_info)
  : js string :=
  base <- lift (fun h => to_string h (i_base i)) ;;
  table <- lift (fun h => to_string h (i_table i)) ;;
  record <- lift (fun h => to_string h (i_record i)) ;;
  name <- name_get this ;;
  name <- lift (fun h => to_string h name) ;;
  strict <- config_member this "strict" ;;
  h <- get_heap ;;
  className <- (if is_undefined (i_class i) then ret ""
                else c <- lift (fun h => to_string h (i_class i)) ;;
                     ret (newline +:+ "Class: " +:+ c)) ;;
  ret (newline +:+ "=====FIELD INFO====="
       +:+ newline +:+ "Base: " +:+ base
       +:+ newline +:+ "Table: " +:+ table
       +:+ newline +:+ "Record: " +:+ record
       +:+ newline +:+ "Field: " +:+ name
       +:+ newline +:+ "Strict: "
       +:+ (if strict_eq strict (VBool true) then "true" else "false")
       +:+ newline +:+ "Received: " +:+ default "undefined" (i_print i)
       +:+ newline +:+ "Type: "
       +:+ (if is_array h received then "array"
            else jstype_name (typeof received))
       +:+ className
       +:+ newline +:+ "=====FIELD INFO=====").

(** The [Error] object of [_error] (lines 167-194). *)
Definition error_object (this : loc) (message received : value) : js js_error :=
  i <- collect_info this received ;;
  m <- lift (fun h => to_string h message) ;;
  block <- info_block this received i ;;
  ret (mkError (i_type i +:+ "Error") (m +:+ block)).

Definition exit_notice : string :=
  "Fields which fail to initialize will cause a lot of problems later on."
  +:+ newline
  +:+ "Because the field failed to initialize, there is a good possibility that data which wasn't allowed with your field config came in from Airtable."
  +:+ newline
  +:+ "This can happen if you have a NumberField set to strict with a precision of 2 and the value 12.888 is saved on Airtable."
  +:+ newline
  +:+ "The Airtable website will make that look like 12.89 and you can only interract with it as 12.89 on the website, however their REST API will send 12.888."
  +:+ newline
  +:+ "To prevent failures throughout the API, exiting with status code 2.".

(** What [_error] does with the error it has built (lines 195-207).  The
    configuration is only consulted when [forceThrow] is not [true]. *)
Definition error_dispatch (this : loc) (forceThrow : value) (error : js_error)
  : js value :=
  t <- type_get this ;;
  must_throw <-
    (if negb (is_undefined t) then
       if strict_eq forceThrow (VBool true) then ret true
       else
         ign <- config_member this "__ignoreFieldErrors__" ;;
         ret (negb (strict_eq ign (VBool true)))
     else ret false) ;;
  if must_throw : bool then throw error
  else
    log (LogStack error) ;;;
    t <- type_get this ;;
    if is_undefined t then
      log (LogError exit_notice) ;;;
      process_exit 2
    else ret VUndefined.

(** [_error(message, received, forceThrow = false)] (lines 166-208); its
    result, when it returns, is [undefined]. *)
Definition _error (this : loc) (message received forceThrow : value) : js value :=
  let forceThrow :=
    if is_undefined forceThrow then VBool false else forceThrow in
  error <- error_object this message received ;;
  error_dispatch this forceThrow error.

(** [_warn(message, received)] (lines 210-239) *)
Definition _warn (this : loc) (message received : value) : js value :=
  i <- collect_info this received ;;
  m <- lift (fun h => to_string h message) ;;
  block <- info_block this received i ;;
  log (LogWarn (i_type i +:+ "Warning: " +:+ m +:+ block)) ;;;
  ret VUndefined.

End FieldClass.

Section FieldMethods.
Context {RT : Runtime}.

(** *** The setters (lines 76-113) *)

(** [set _changed], [set _saveValue] and [set record] (lines 76-78, 84-86,
    101-103) ignore what they are given. *)
Definition _changed_set (this : loc) (v : value) : js unit := ret tt.
Definition _saveValue_set (this : loc) (v : value) : js unit := ret tt.
Definition record_set (this : loc) (v : value) : js unit := ret tt.

(** [set _originalValue(value)] (lines 80-82) *)
Definition _originalValue_set (this : loc) (v : value) : js unit :=
  put_own this "_originalValue_" v.

(** [set config(config)] (lines 88-94) *)
Definition config_set (this : loc) (config : value) : js unit :=
  c <- read (fun h => slot h this "_config") ;;
  if negb (is_undefined c) then
    _error this (VStr "config can not be changed!") VUndefined VUndefined ;;;
    ret tt
  else
    h <- get_heap ;;
    if negb (jstype_eqb (typeof config) TObject) || is_array h config then
      _error this (VStr "config should be key-value Object.") config VUndefined ;;;
      ret tt
    else put_own this "_config" config.

(** [_checkName(name)] (lines 115-119) *)
Definition _checkName (this : loc) (name : value) : js value :=
  match name with
  | VStr s =>
      if Nat.ltb (String.length s) 1 then
        _error this
          (VStr "name must be a string with a minimum length of 1 character.")
          name VUndefined
      else ret (VBool true)
  | _ =>
      _error this
        (VStr "name must be a string with a minimum length of 1 character.")
        name VUndefined
  end.

(** [set name(name)] (lines 96-99) *)
Definition name_set (this : loc) (name : value) : js unit :=
  ok <- _checkName this name ;;
  when (truthy ok) (put_own this "_name" name).

(** [set type(type)] (lines 105-109) *)
Definition type_set (this : loc) (type : value) : js unit :=
  t <- type_get this ;;
  if negb (is_undefined t) then
    _error this (VStr "type can not be changed!") type VUndefined ;;;
    ret tt
  else put_own this "_type" type.

(** [set value(value)] (lines 111-113) *)
Definition value_set (this : loc) (v : value) : js unit :=
  put_own this "_value" v.

(** [target[key] = v] in strict mode, for any target.  On a [Field]
    instance the accessors of the class take the assignment; on an array
    an index writes the element.  (An assignment to the [length] of an
    array is not modelled apart: it is kept as a named property.) *)
Definition put_member (target : value) (key : string) (v : value) : js unit :=
  match target with
  | VUndefined | VNull =>
      throw (TypeError ("Cannot set properties of "
                        +:+ (if strict_eq target VNull then "null" else "undefined")
                        +:+ " (setting '" +:+ key +:+ "')"))
  | VRef l =>
      k <- read (fun h => kind_of h target) ;;
      match k with
      | Some (KField _) =>
          if String.eqb key "_changed" then _changed_set l v
          else if String.eqb key "_saveValue" then _saveValue_set l v
          else if String.eqb key "record" then record_set l v
          else if String.eqb key "_originalValue" then _originalValue_set l v
          else if String.eqb key "config" then config_set l v
          else if String.eqb key "name" then name_set l v
          else if String.eqb key "type" then type_set l v
          else if String.eqb key "value" then value_set l v
          else put_own l key v
      | Some KArray =>
          match array_index key with
          | Some i =>
              frozen <- read (fun h => is_frozen h target) ;;
              if frozen : bool then
                throw (TypeError ("Cannot assign to property '" +:+ key
                                  +:+ "' of a frozen object"))
              else update l (with_elems (set_elem i v))
          | None => put_own l key v
          end
      | _ => put_own l key v
      end
  | _ =>
      throw (TypeError ("Cannot create property '" +:+ key
                        +:+ "' on a primitive value"))
  end.

(** *** The constructor (lines 2-18)

    [new cls(name, value, config)] for [Field] itself or a class [cls]
    that inherits its constructor.  It answers with the new instance. *)
Definition Field_new (cls : string) (name value config : value) : js loc :=
  this <- new_object (mkObj (KField cls) [] [] false) ;;
  config <- (if is_undefined config then alloc (mkObj KObject [] [] false)
             else ret config) ;;
  if negb (jstype_eqb (typeof name) TString) then
    received <- lift (fun h => to_string h name) ;;
    throw (mkError "UninitializedFieldError"
             ("The 'name' of a Field was not set to a String. "
              +:+ "Received: " +:+ received))
  else
    strict <- lift (fun h => get_member h config "strict") ;;
    when (negb (strict_eq strict (VBool true)))
         (put_member config "strict" (VBool false)) ;;;
    name_set this name ;;;
    config_set this config ;;;
    when (negb (is_undefined value)) (value_set this value) ;;;
    _originalValue_set this value ;;;
    ret this.

(** *** The value to save (lines 30-54) *)

(** [[].concat(v)]: a new array, with the elements of [v] if [v] is an
    array and with [v] alone otherwise. *)
Definition concat_into_empty (v : value) : js value :=
  h <- get_heap ;;
  if is_array h v then
    match spread h v with
    | Ok elems => alloc (mkObj KArray elems [] false)
    | Err e => throw e
    end
  else alloc (mkObj KArray [v] [] false).

(** [get _saveValue()].  [this.value], [this._originalValue] and
    [this.config.strict] are read once: the getters run no code that could
    change them between the tests. *)
Definition _saveValue (this : loc) : js value :=
  strict <- config_member this "strict" ;;
  value <- value_get this ;;
  orig <- _originalValue_get this ;;
  if strict_eq strict (VBool true) then ret value
  else if is_undefined value || strict_eq value VNull then ret VNull
  else if is_undefined orig || jstype_eqb (typeof value) (typeof orig)
  then ret value
  else if negb (is_undefined orig)
          && (is_undefined value || strict_eq value VNull || is_NaN value)
  then ret VNull
  else if jstype_eqb (typeof orig) TString then
    s <- lift (fun h => to_string h value) ;; ret (VStr s)
  else if jstype_eqb (typeof orig) TBoolean then
    ret (VBool (truthy value))
  else if jstype_eqb (typeof orig) TNumber then
    n <- lift (fun h => to_number h value) ;; ret (VNum n)
  else
    h <- get_heap ;;
    if is_array h orig then concat_into_empty value
    else ret value.

(** *** Change detection (lines 20-24) *)

(** [JSON.stringify([...v].sort())] *)
Definition sorted_json (h : list obj) (v : value) : res string :=
  elems <~ spread h v ;;
  sorted <~ sort_default h elems ;;
  JSON_stringify_elems h sorted.

(** [get _changed()] *)
Definition _changed (this : loc) : js bool :=
  orig <- _originalValue_get this ;;
  value <- value_get this ;;
  h <- get_heap ;;
  if is_array h orig && is_array h value then
    a <- lift (fun h => sorted_json h orig) ;;
    save <- _saveValue this ;;
    b <- lift (fun h => sorted_json h save) ;;
    ret (negb (String.eqb a b))
  else
    save <- _saveValue this ;;
    if negb (strict_eq orig save) then
      a <- lift (fun h => JSON_stringify h orig) ;;
      value <- value_get this ;;
      b <- lift (fun h => JSON_stringify h value) ;;
      ret (bool_decide (a <> b))
    else ret false.

(** *** [copy()] (lines 121-125)

    [this.constructor] is the class of the instance; the classes that
    extend [Field] are taken to inherit its constructor. *)
Definition copy (this : loc) : js loc :=
  name <- name_get this ;;
  value <- value_get this ;;
  config <- config_get this ;;
  cls <- read (fun h => constructor_name h (VRef this)) ;;
  c <- Field_new cls name value config ;;
  orig <- _originalValue_get this ;;
  put_own c "_originalValue_" orig ;;;
  ret c.

End FieldMethods.

(** *** [_deepFreezeValue(value)] (lines 142-164) *)

Section DeepFreeze.
Context {RT : Runtime}.

(** [cache[key] === true] for the local object [cache], whose properties
    are the keys in [seen].  The key [__proto__] names the prototype and
    not a property, so it is never found. *)
Definition cache_has (seen : list string) (key : string) : bool :=
  negb (String.eqb key "__proto__") && bool_decide (key ∈ seen).

(** [value.map(value => handleValue(value))], the cache passed along. *)
Fixpoint map_handle (handle : value -> list string -> js (value * list string))
    (elems : list value) (seen : list string) : js (list value * list string) :=
  match elems with
  | [] => ret ([], seen)
  | e :: rest =>
      r <- handle e seen ;;
      rs <- map_handle handle rest (snd r) ;;
      ret (fst r :: fst rs, snd rs)
  end.

(** [entries.reduce((obj, [key, value]) => obj[key] = handleValue(value), obj)]:
    the callback answers with the value it assigned, which becomes the
    accumulator of the next entry. *)
Fixpoint reduce_handle (handle : value -> list string -> js (value * list string))
    (entries : list (string * value)) (acc : value) (seen : list string)
  : js (value * list string) :=
  match entries with
  | [] => ret (acc, seen)
  | (key, v) :: rest =>
      r <- handle v seen ;;
      put_member acc key (fst r) ;;;
      reduce_handle handle rest (fst r) (snd r)
  end.

(** The local function [handleValue].  A value that is not an object is
    frozen, so only objects pass line 151, and the last line of the
    function (the copy through JSON) is not reached by a value of the
    model. *)
Fixpoint handleValue (fuel : nat) (this : loc) (v : value) (seen : list string)
  : js (value * list string) :=
  match fuel with
  | O => throw (RangeError "Maximum call stack size exceeded")
  | S n =>
      key <- lift (fun h => to_string h v) ;;
      if cache_has seen key then ret (v, seen)
      else
        let seen := key :: seen in
        if is_undefined v || strict_eq v VNull || is_NaN v then ret (v, seen)
        else
          h <- get_heap ;;
          if is_frozen h v then ret (v, seen)
          else
            record <- lift (fun h => _isRecord h v) ;;
            if record : bool then ret (v, seen)
            else if instanceof_Field h v then ret (v, seen)
            else if is_array h v then
              elems <- lift (fun h => spread h v) ;;
              r <- map_handle (handleValue n this) elems seen ;;
              a <- alloc (mkObj KArray (fst r) [] false) ;;
              a <- Object_freeze a ;;
              ret (a, snd r)
            else if jstype_eqb (typeof v) TObject then
              entries <- read (fun h => match v with
                                        | VRef l => default [] (o_props <$> h !! l)
                                        | _ => []
                                        end) ;;
              empty <- alloc (mkObj KObject [] [] false) ;;
              r <- reduce_handle (handleValue n this) entries empty seen ;;
              a <- Object_freeze (fst r) ;;
              ret (a, snd r)
            else ret (v, seen)
  end.

Definition _deepFreezeValue (this : loc) (v : value) : js value :=
  h <- get_heap ;;
  r <- handleValue (depth_bound h) this v [] ;;
  ret (fst r).

End DeepFreeze.

(** ** A run time for the examples

    The properties below hold for every [Runtime].  To evaluate the class
    on concrete inputs one is fixed here: it renders a number with an
    integral value in decimal digits and reads a string of decimal digits
    as that number, as ECMAScript does for integers of magnitude below
    [2^53]; the other numbers and strings, which no example uses, are
    rendered [NaN] and read as [NaN]. *)

Definition integral_value (x : float) : option Z :=
  match Prim2SF x with
  | S754_zero _ => Some 0%Z
  | S754_finite sign m e =>
      let z := (if (0 <=? e)%Z then Some (Z.pos m * 2 ^ e)%Z
                else if (Z.pos m mod 2 ^ (- e) =? 0)%Z
                     then Some (Z.pos m / 2 ^ (- e))%Z else None) in
      (fun z => if sign then (- z)%Z else z) <$> z
  | _ => None
  end.

Definition example_Number_toString (x : float) : string :=
  match integral_value x with
  | Some z => if (Z.abs z <? 9007199254740992)%Z then pretty z else "NaN"
  | None => "NaN"
  end.

Definition example_StringToNumber (s : string) : float :=
  match s with
  | EmptyString => PrimFloat.zero
  | _ =>
      match parse_digits s 0 with
      | Some n =>
          if (n <? 9007199254740992)%N
          then PrimFloat.of_uint63 (Uint63.of_Z (Z.of_N n))
          else PrimFloat.nan
      | None => PrimFloat.nan
      end
  end.

#[export] Instance example_runtime : Runtime := {
  Number_toString := example_Number_toString;
  StringToNumber := example_StringToNumber;
  Record_stringify := fun _ _ => Ok "{}"
}.

(** ** Running the class on concrete inputs *)

Definition run {A} (c : js A) : outcome A := c empty_state.

(** [f = new Field(name, value)] followed by [f.value = v]. *)
Definition new_then_assign (name value v : value) : js loc :=
  f <- Field_new "Field" name value VUndefined ;;
  value_set f v ;;;
  ret f.

Definition result {A} (o : outcome A) : option A :=
  match o with
  | Ret a _ => Some a
  | _ => None
  end.

(** ** Notions used in the statements *)

Definition final {A} (o : outcome A) : state :=
  match o with
  | Ret _ s | Throw _ s | Exit _ s => s
  end.

Definition exit_code {A} (o : outcome A) : option Z :=
  match o with
  | Exit code _ => Some code
  | _ => None
  end.

Definition thrown {A} (o : outcome A) : option js_error :=
  match o with
  | Throw e _ => Some e
  | _ => None
  end.

Definition empty_object : obj := mkObj KObject [] [] false.

(** The store has only gained empty objects: what [get config()] makes for
    a field without a configuration. *)
Definition grows (s s' : state) : Prop :=
  exists n, heap s' = heap s ++ replicate n empty_object.

(** [c] reads the store and allocates empty objects, nothing else. *)
Definition allocs {A} (c : js A) : Prop :=
  forall s, grows s (final (c s)).

(** [c] does not end the process and writes nothing to the console. *)
Definition silent {A} (c : js A) : Prop :=
  forall s, exit_code (c s) = None /\ console (final (c s)) = console s.

(** An outcome of the error channel: the error was thrown, or the process
    was ended with status 2, or the stack of the error was written to the
    console. *)
Definition reported {A} (s : state) (o : outcome A) : Prop :=
  match o with
  | Ret _ s' => exists e, console s' = console s ++ [LogStack e]
  | Throw _ _ => True
  | Exit code _ => code = 2%Z
  end.

(** [this.config.key] as a function of the store. *)
Definition config_prop (h : list obj) (this : loc) (key : string) : value :=
  let c := slot h this "_config" in
  if truthy c then
    match get_member h c key with
    | Ok v => v
    | Err _ => VUndefined
    end
  else VUndefined.

(** The configuration asks for errors to be ignored:
    [this.config.__ignoreFieldErrors__ === true]. *)
Definition suppressed (h : list obj) (this : loc) : bool :=
  strict_eq (config_prop h this "__ignoreFieldErrors__") (VBool true).

(** A field as [new Field('x')] leaves it: no value, no type, the default
    configuration. *)
Definition fresh_field_state : state :=
  final (run (Field_new "Field" (VStr "x") VUndefined VUndefined)).

(** A field whose type was set after its construction, as the classes that
    extend [Field] do. *)
Definition typed_field_state : state :=
  final (run (f <- Field_new "Field" (VStr "x") VUndefined VUndefined ;;
              type_set f (VStr "text"))).

(** A field with a type whose configuration asks to ignore errors. *)
Definition quiet_field_state : state :=
  final (run (c <- alloc (mkObj KObject []
                            [("__ignoreFieldErrors__", VBool true)] false) ;;
              f <- Field_new "Field" (VStr "x") VUndefined c ;;
              type_set f (VStr "text"))).

(** The own properties of a field after its construction with a valid
    name: the slot [_value] is only made for a value that is not
    [undefined]. *)
Definition field_props (name config v : value) : list (string * value) :=
  [("_name", name); ("_config", config)]
  ++ (if is_undefined v then [] else [("_value", v)])
  ++ [("_originalValue_", v)].

Definition field_object (cls : string) (name config v : value) : obj :=
  mkObj (KField cls) [] (field_props name config v) false.

(** What the constructor leaves of the configuration object it is given
    (lines 11-12). *)
Definition normalize_strict (o : obj) : obj :=
  if strict_eq (own_get "strict" (o_props o)) (VBool true) then o
  else with_props (own_put "strict" (VBool false)) o.

(** A configuration the constructor accepts: none, or an object that is
    not an array and that takes the assignment of line 12 or does not
    need it (it is not frozen, or its [strict] is [true] already). *)
Definition config_ok (h : list obj) (config : value) : Prop :=
  config = VUndefined
  \/ exists c o, config = VRef c /\ h !! c = Some o
                 /\ o_kind o <> KArray
                 /\ (o_frozen o = false
                     \/ strict_eq (own_get "strict" (o_props o)) (VBool true)
                        = true).

(** The store when the constructor looks at the name: the new instance is
    there, and so is the default configuration when none was given. *)
Definition store_at_name_check (cls : string) (config : value) (s : state)
  : state :=
  mkState (heap s ++ [mkObj (KField cls) [] [] false]
           ++ (if is_undefined config then [mkObj KObject [] [] false] else []))
          (console s).

Definition not_a_string_error (text : string) : js_error :=
  mkError "UninitializedFieldError"
          ("The 'name' of a Field was not set to a String. Received: " +:+ text).

(** The instance [copy()] makes of a field of class [cls]. *)
Definition copy_object (cls : string) (h : list obj) (this : loc) : obj :=
  mkObj (KField cls) []
        [("_name", name_of h this); ("_config", slot h this "_config");
         ("_value", value_of h this); ("_originalValue_", original_of h this)]
        false.



(** [new Field('Name', 'Alice')] *)
Definition alice_state : state :=
  final (run (Field_new "Field" (VStr "Name") (VStr "Alice") VUndefined)).

(** [f = new Field('Name', 'Alice'); f.value = 42] *)
Definition alice_42_state : state :=
  final (run (new_then_assign (VStr "Name") (VStr "Alice") (VNum 42))).

(** The sort of the class on strings alone. *)
Fixpoint insert_string (x : string) (l : list string) : list string :=
  match l with
  | [] => [x]
  | y :: rest =>
      if String.leb y x then y :: insert_string x rest else x :: y :: rest
  end.

Definition sort_strings (l : list string) : list string :=
  fold_left (fun acc x => insert_string x acc) l [].

Definition keyed (s : string) : string * value := (s, VStr s).

(** The store has only gained objects: every object that was there is as
    it was. *)
Definition extends (s s' : state) : Prop :=
  exists new, heap s' = heap s ++ new.

(** [c] changes no object of the store, writes nothing to the console and
    does not end the process: all it does is to add objects. *)
Definition adds_only {A} (c : js A) : Prop :=
  forall s, extends s (final (c s))
            /\ console (final (c s)) = console s
            /\ exit_code (c s) = None.

(** [v] is an object (a reference), not a primitive value. *)
Definition is_object (v : value) : bool :=
  match v with
  | VRef _ => true
  | _ => false
  end.

(** A field for which the texts of [_error] and [_warn] can always be
    made: its configuration names no record, and its name is not an
    object. *)
Definition plain_field (h : list obj) (this : loc) : bool :=
  negb (truthy (config_prop h this "__record__"))
  && negb (is_object (name_of h this)).

(** The prefix of the names [_error] and [_warn] give: the class of the
    field once its type is set. *)
Definition diagnostic_type (h : list obj) (this : loc) : string :=
  if is_undefined (type_of h this) then "UninitializedField"
  else constructor_name h (VRef this).

(** The value of a hexadecimal digit as [hex_digit] writes it. *)
Definition hex_value (c : ascii) : nat :=
  let n := nat_of_ascii c in
  if Nat.leb 97 n then n - 87 else n - 48.

(** The first character of a JSON string body and what follows its
    escape; there is none before an unescaped quote. *)
Definition json_unescape_first (s : string) : option (ascii * string) :=
  match s with
  | EmptyString => None
  | String c rest =>
      if Ascii.eqb c dquote then None
      else if Ascii.eqb c "\"%char then
        match rest with
        | EmptyString => None
        | String x rest' =>
            if Ascii.eqb x "u"%char then
              match rest' with
              | String _ (String _ (String a (String b r))) =>
                  Some (ascii_of_nat (16 * hex_value a + hex_value b), r)
              | _ => None
              end
            else if Ascii.eqb x "b"%char then Some ("008"%char, rest')
            else if Ascii.eqb x "t"%char then Some ("009"%char, rest')
            else if Ascii.eqb x "n"%char then Some ("010"%char, rest')
            else if Ascii.eqb x "f"%char then Some ("012"%char, rest')
            else if Ascii.eqb x "r"%char then Some ("013"%char, rest')
            else Some (x, rest')
        end
      else Some (c, rest)
  end.

(** [f = new Field('Name', 'Alice'); f.value = 'Bob'] *)
Definition alice_bob_state : state :=
  final (run (new_then_assign (VStr "Name") (VStr "Alice") (VStr "Bob"))).

(** A field as the constructor has it when it assigns the configuration
    (line 14): the name is set, nothing else. *)
Definition named_field_state : state :=
  mkState [mkObj (KField "Field") [] [("_name", VStr "x")] false] [].

(** A configuration object of the caller whose [strict] is truthy but not
    [true]: [{strict: 1}]. *)
Definition loose_config_state : state :=
  mkState [mkObj KObject [] [("strict", VNum 1)] false] [].

(** [a = ['a', 'b']; b = ['b', 'a']; f = new Field('Tags', a); f.value = b] *)
Definition tags_state : state :=
  final (run (a <- alloc (mkObj KArray [VStr "a"; VStr "b"] [] false) ;;
              b <- alloc (mkObj KArray [VStr "b"; VStr "a"] [] false) ;;
              new_then_assign (VStr "Tags") a b)).

(** [a = ['b', 'a']; f = new Field('Tags', a)] *)
Definition tags_untouched_state : state :=
  final (run (a <- alloc (mkObj KArray [VStr "b"; VStr "a"] [] false) ;;
              Field_new "Field" (VStr "Tags") a VUndefined)).

(** [{a: 1}], [{a: 1, b: 2}] and [[1, 'a', null]], and a field. *)
Definition freeze_inputs_state : state :=
  final (run (alloc (mkObj KObject [] [("a", VNum 1)] false) ;;;
              alloc (mkObj KObject [] [("a", VNum 1); ("b", VNum 2)] false) ;;;
              alloc (mkObj KArray [VNum 1; VStr "a"; VNull] [] false) ;;;
              Field_new "Field" (VStr "Name") VUndefined VUndefined)).

(** * Properties *)

(** ** The scenarios of the specification, evaluated *)

Example scenario_text_baseline :
  result (run (f <- new_then_assign (VStr "Name") (VStr "Alice") (VNum 42) ;;
               s <- _saveValue f ;; c <- _changed f ;; ret (s, c)))
  = Some (VStr "42", true).
Proof. vm_compute. reflexivity. Qed.

Example scenario_numeric_baseline :
  result (run (f <- new_then_assign (VStr "Count") (VNum 5) (VStr "5") ;;
               s <- _saveValue f ;; c <- _changed f ;; ret (s, c)))
  = Some (VNum 5, false).
Proof. vm_compute. reflexivity. Qed.

Example scenario_tags :
  result (run (a <- alloc (mkObj KArray [VStr "a"; VStr "b"] [] false) ;;
               b <- alloc (mkObj KArray [VStr "b"; VStr "a"] [] false) ;;
               f <- new_then_assign (VStr "Tags") a b ;;
               _changed f))
  = Some false.
Proof. vm_compute. reflexivity. Qed.

Example scenario_bad_name :
  run (Field_new "Field" (VNum 123) VUndefined VUndefined)
  = Throw (mkError "UninitializedFieldError"
             "The 'name' of a Field was not set to a String. Received: 123")
          (mkState [mkObj (KField "Field") [] [] false; mkObj KObject [] [] false] []).
Proof. vm_compute. reflexivity. Qed.

(** An own property that hides an inherited member.  A plain object with
    a property [toString] has no text: as a name it makes construction
    fail with a [TypeError] (line 6), and [_deepFreezeValue] fails on it
    at the look-up in its cache (line 145).  A plain object whose
    [constructor] is [null] has no [constructor.name]: [_deepFreezeValue]
    fails on it in [_isRecord] (line 137), and [_error], given it as the
    received value, fails at line 173 before it reports anything, also on
    a field without a type. *)
Example own_members_hide_inherited :
  ename <$> thrown (run (n <- alloc (mkObj KObject [] [("toString", VNum 1)] false) ;;
                         Field_new "Field" n VUndefined VUndefined))
  = Some "TypeError"
  /\ ename <$> thrown (run (f <- Field_new "Field" (VStr "Name") VUndefined VUndefined ;;
                            o <- alloc (mkObj KObject [] [("toString", VNum 1)] false) ;;
                            _deepFreezeValue f o))
     = Some "TypeError"
  /\ ename <$> thrown (run (f <- Field_new "Field" (VStr "Name") VUndefined VUndefined ;;
                            o <- alloc (mkObj KObject [] [("constructor", VNull)] false) ;;
                            _deepFreezeValue f o))
     = Some "TypeError"
  /\ (fun o => (ename <$> thrown o, exit_code o, console (final o)))
       (run (f <- Field_new "Field" (VStr "Name") VUndefined VUndefined ;;
             o <- alloc (mkObj KObject [] [("constructor", VNull)] false) ;;
             _error f (VStr "invalid") o VUndefined))
     = (Some "TypeError", None, []).
Proof. repeat split; vm_compute; reflexivity. Qed.

(** ** How a computation ends, and what it leaves of the store *)

Lemma grows_refl s : grows s s.
Proof. exists 0. simpl. by rewrite app_nil_r. Qed.

Lemma grows_trans s1 s2 s3 : grows s1 s2 -> grows s2 s3 -> grows s1 s3.
Proof.
  intros [n Hn] [m Hm]. exists (n + m).
  by rewrite Hm, Hn, <- app_assoc, replicate_add.
Qed.

Lemma grows_lookup s s' l o :
  grows s s' -> heap s !! l = Some o -> heap s' !! l = Some o.
Proof. intros [n ->] H. by apply lookup_app_l_Some. Qed.

Lemma grows_lookup_new s s' l :
  grows s s' -> heap s !! l = None ->
  heap s' !! l = None \/ heap s' !! l = Some empty_object.
Proof.
  intros [n ->] H. destruct ((heap s ++ replicate n empty_object) !! l) eqn:E.
  - right. apply lookup_app_Some in E as [E | [_ E]]; [congruence|].
    apply lookup_replicate in E as [-> _]. done.
  - by left.
Qed.

Lemma grows_slot s s' l key :
  grows s s' -> slot (heap s') l key = slot (heap s) l key.
Proof.
  intros G. unfold slot. destruct (heap s !! l) eqn:E.
  - by rewrite (grows_lookup _ _ _ _ G E).
  - destruct (grows_lookup_new _ _ _ G E) as [-> | ->]; done.
Qed.

Lemma grows_get_member s s' v key :
  grows s s' -> get_member (heap s') v key = get_member (heap s) v key.
Proof.
  intros G. destruct v as [| | | | |l]; try done. simpl.
  destruct (heap s !! l) eqn:E.
  - by rewrite (grows_lookup _ _ _ _ G E).
  - destruct (grows_lookup_new _ _ _ G E) as [-> | ->]; done.
Qed.

Section Frames.
Context {A B : Type}.

Lemma allocs_ret (a : A) : allocs (ret a).
Proof. intros s. apply grows_refl. Qed.

Lemma allocs_throw (e : js_error) : allocs (@throw A e).
Proof. intros s. apply grows_refl. Qed.

Lemma allocs_exit (n : Z) : allocs (@process_exit A n).
Proof. intros s. apply grows_refl. Qed.

Lemma allocs_read (f : list obj -> A) : allocs (read f).
Proof. intros s. apply grows_refl. Qed.

Lemma allocs_lift (f : list obj -> res A) : allocs (lift f).
Proof. intros s. unfold lift. destruct (f (heap s)); apply grows_refl. Qed.

Lemma allocs_bind (c : js A) (k : A -> js B) :
  allocs c -> (forall a, allocs (k a)) -> allocs (bind c k).
Proof.
  intros Hc Hk s. unfold bind. specialize (Hc s).
  destruct (c s) as [a s1 | e s1 | n s1]; simpl in *; try done.
  eapply grows_trans; [exact Hc | apply Hk].
Qed.

Lemma silent_ret (a : A) : silent (ret a).
Proof. done. Qed.

Lemma silent_throw (e : js_error) : silent (@throw A e).
Proof. done. Qed.

Lemma silent_read (f : list obj -> A) : silent (read f).
Proof. done. Qed.

Lemma silent_lift (f : list obj -> res A) : silent (lift f).
Proof. intros s. unfold lift. by destruct (f (heap s)). Qed.

Lemma silent_bind (c : js A) (k : A -> js B) :
  silent c -> (forall a, silent (k a)) -> silent (bind c k).
Proof.
  intros Hc Hk s. unfold bind. destruct (Hc s) as [Hx Hl].
  destruct (c s) as [a s1 | e s1 | n s1]; simpl in *; try done.
  destruct (Hk a s1) as [Hx' Hl']. split; [done | congruence].
Qed.

End Frames.

Lemma allocs_get_heap : allocs get_heap.
Proof. intros s. apply grows_refl. Qed.

Lemma silent_get_heap : silent get_heap.
Proof. done. Qed.

Lemma allocs_log e : allocs (log e).
Proof. intros s. exists 0. simpl. by rewrite app_nil_r. Qed.

Lemma allocs_alloc_empty : allocs (alloc (mkObj KObject [] [] false)).
Proof. intros s. by exists 1. Qed.

Lemma silent_alloc o : silent (alloc o).
Proof. done. Qed.

Create HintDb frames.
#[export] Hint Resolve allocs_ret allocs_throw allocs_exit allocs_read
  allocs_lift allocs_get_heap allocs_log allocs_alloc_empty silent_ret
  silent_throw silent_read silent_lift silent_get_heap silent_alloc : frames.

(** One step through a computation built from the pieces above. *)
Ltac frame_step :=
  match goal with
  | |- allocs (bind _ _) => apply allocs_bind; [| intros ?]
  | |- silent (bind _ _) => apply silent_bind; [| intros ?]
  | |- allocs (if ?b then _ else _) => destruct b
  | |- silent (if ?b then _ else _) => destruct b
  | |- allocs (match ?v with _ => _ end) => destruct v
  | |- silent (match ?v with _ => _ end) => destruct v
  | |- _ => solve [auto with frames]
  end.

Ltac frames := repeat frame_step.

Section FieldFrames.
Context {RT : Runtime}.

Lemma allocs_config_get this : allocs (config_get this).
Proof. unfold config_get. frames. Qed.

Lemma silent_config_get this : silent (config_get this).
Proof. unfold config_get. frames. Qed.

Lemma allocs_config_member this key : allocs (config_member this key).
Proof. unfold config_member. pose proof allocs_config_get. frames. Qed.

Lemma silent_config_member this key : silent (config_member this key).
Proof. unfold config_member. pose proof silent_config_get. frames. Qed.

Lemma allocs_error_object this m r : allocs (error_object this m r).
Proof.
  pose proof allocs_config_get. pose proof allocs_config_member.
  unfold error_object, collect_info, info_block, print_received,
    record_table_member, record_id, record_get, type_get, name_get, toString.
  frames.
Qed.

Lemma silent_error_object this m r : silent (error_object this m r).
Proof.
  pose proof silent_config_get. pose proof silent_config_member.
  unfold error_object, collect_info, info_block, print_received,
    record_table_member, record_id, record_get, type_get, name_get, toString.
  frames.
Qed.

Lemma allocs_error_dispatch this ft e : allocs (error_dispatch this ft e).
Proof.
  pose proof allocs_config_member. unfold error_dispatch, type_get. frames.
Qed.

Lemma allocs__error this m r ft : allocs (_error this m r ft).
Proof.
  unfold _error. apply allocs_bind; [apply allocs_error_object|].
  intros. apply allocs_error_dispatch.
Qed.

End FieldFrames.

(** ** Reading [value] (claim C5) *)

(** A number equal to zero is not [NaN]. *)
Lemma float_zero_not_nan (x : float) :
  PrimFloat.eqb x 0 = true -> PrimFloat.is_nan x = false.
Proof.
  unfold PrimFloat.is_nan. rewrite !FloatAxioms.eqb_spec.
  change (Prim2SF 0) with (S754_zero false).
  destruct (Prim2SF x) as [sg| sg | | sg m e]; simpl; try done.
  - destruct sg; done.
  - destruct sg; done.
Qed.

Section ValueGetter.
Context {RT : Runtime}.

(** C5, as the code has it: reading [value] changes nothing and answers
    with the stored value when that is truthy, or is the number 0 (of
    either sign), or is [false]; any other stored value, that is an unset
    one, [null], the empty string or [NaN], reads as [null], the
    explicit-empty marker. *)
Theorem value_get_normalizes (s : state) (this : loc) :
  let stored := slot (heap s) this "_value" in
  exists r,
    value_get this s = Ret r s
    /\ (truthy stored = true -> r = stored)
    /\ (strict_eq stored (VNum 0) = true -> r = stored)
    /\ (stored = VBool false -> r = stored)
    /\ (stored = VUndefined -> r = VNull)
    /\ (stored = VNull -> r = VNull)
    /\ (stored = VStr "" -> r = VNull)
    /\ (is_NaN stored = true -> r = VNull)
    /\ (truthy stored = false -> strict_eq stored (VNum 0) = false ->
        stored <> VBool false -> r = VNull).
Proof.
  intros stored. exists (normalize_value stored). split; [done|].
  unfold normalize_value.
  repeat split.
  - intros H. rewrite H. by destruct (_ || _).
  - by intros ->.
  - by intros ->.
  - by intros ->.
  - by intros ->.
  - by intros ->.
  - destruct stored as [| | | x | |]; try done. simpl. intros Hn.
    destruct (PrimFloat.eqb x 0) eqn:E0; simpl.
    + apply float_zero_not_nan in E0. congruence.
    + by rewrite Hn, orb_true_r.
  - intros Ht H0 Hf. rewrite H0, Ht. simpl.
    destruct stored as [| |[]| | |]; try done.
Qed.

End ValueGetter.

(** The claim C5 as it is written fails on an unset value: a field made
    without a value stores nothing in [_value], and reads [null]. *)
Lemma value_get_unset_is_null :
  result (run (f <- Field_new "Field" (VStr "x") VUndefined VUndefined ;;
               stored <- read (fun h => slot h f "_value") ;;
               v <- value_get f ;;
               ret (stored, v)))
  = Some (VUndefined, VNull).
Proof. vm_compute. reflexivity. Qed.

(** ** The error channel *)

Section ErrorChannel.
Context {RT : Runtime}.

Lemma get_member_truthy h c key :
  truthy c = true -> exists v, get_member h c key = Ok v.
Proof.
  destruct c as [| | | | |l]; try done; simpl; eauto.
  intros _. destruct (h !! l) as [o|]; eauto.
  destruct (o_kind o); eauto. destruct (String.eqb key "name"); eauto.
Qed.

Lemma config_member_run this key s :
  exists s', config_member this key s = Ret (config_prop (heap s) this key) s'
             /\ grows s s' /\ console s' = console s.
Proof.
  unfold config_member, config_get, config_prop, bind, read, lift.
  destruct (truthy (slot (heap s) this "_config")) eqn:T.
  - destruct (get_member_truthy (heap s) _ key T) as [v Hv].
    exists s. simpl. rewrite Hv. split; [done|]. split; [apply grows_refl | done].
  - eexists. simpl. rewrite lookup_app_r by done.
    rewrite Nat.sub_diag. simpl. split; [done|]. split; [by exists 1 | done].
Qed.

Lemma grows_config_prop s s' this key :
  grows s s' -> config_prop (heap s') this key = config_prop (heap s) this key.
Proof.
  intros G. unfold config_prop.
  by rewrite (grows_slot _ _ _ _ G), (grows_get_member _ _ _ _ G).
Qed.

(** What [_error] does once its error object [e] is built. *)
Lemma error_dispatch_run this forceThrow e s :
  exists s', grows s s' /\
    if is_undefined (type_of (heap s) this) then
      error_dispatch this forceThrow e s = Exit 2 s'
      /\ console s' = console s ++ [LogStack e; LogError exit_notice]
    else if strict_eq forceThrow (VBool true) || negb (suppressed (heap s) this)
    then error_dispatch this forceThrow e s = Throw e s'
         /\ console s' = console s
    else error_dispatch this forceThrow e s = Ret VUndefined s'
         /\ console s' = console s ++ [LogStack e].
Proof.
  unfold error_dispatch, type_get, bind, read.
  destruct (is_undefined (type_of (heap s) this)) eqn:U; simpl.
  - rewrite U. simpl. eexists. split; [|split; [reflexivity|]].
    + exists 0. simpl. by rewrite app_nil_r.
    + simpl. by rewrite <- app_assoc.
  - destruct (strict_eq forceThrow (VBool true)) eqn:F; simpl.
    + exists s. split; [apply grows_refl | done].
    + destruct (config_member_run this "__ignoreFieldErrors__" s)
        as (s1 & -> & G & C).
      unfold suppressed.
      destruct (strict_eq (config_prop (heap s) this "__ignoreFieldErrors__")
                  (VBool true)) eqn:S; simpl.
      * unfold type_of in *. rewrite (grows_slot _ _ _ _ G), U. simpl.
        eexists. split; [|split; [reflexivity|]].
        -- destruct G as [n G]. exists n. done.
        -- simpl. by rewrite C.
      * exists s1. done.
Qed.

(** When the error object cannot be built, what was raised while building
    it reaches the caller and the process goes on. *)
Lemma error_build_failure this message received forceThrow s e s1 :
  error_object this message received s = Throw e s1 ->
  _error this message received forceThrow s = Throw e s1.
Proof. intros H. unfold _error, bind. by rewrite H. Qed.

(** Whatever is given to it, [_error] ends the process only with status 2
    and only for a field whose type is unset. *)
Lemma error_exit_only_unset this message received forceThrow s code s' :
  _error this message received forceThrow s = Exit code s' ->
  code = 2%Z /\ type_of (heap s) this = VUndefined.
Proof.
  unfold _error, bind.
  pose proof (allocs_error_object this message received s) as G.
  pose proof (silent_error_object this message received s) as [X _].
  destruct (error_object this message received s) as [e s1 | e s1 | n s1];
    try done.
  simpl in G.
  destruct (error_dispatch_run this
              (if is_undefined forceThrow then VBool false else forceThrow)
              e s1) as (s2 & _ & D).
  unfold type_of in *. rewrite (grows_slot _ _ _ _ G) in D.
  destruct (is_undefined (slot (heap s) this "_type")) eqn:U.
  - destruct D as [-> _]. intros [= <- <-]. split; [done|].
    by destruct (slot (heap s) this "_type").
  - destruct (_ || _); destruct D as [-> _]; done.
Qed.

(** [_error] never returns in silence. *)
Lemma error_is_reported this message received forceThrow s :
  reported s (_error this message received forceThrow s).
Proof.
  unfold _error, bind.
  pose proof (silent_error_object this message received s) as [X C].
  destruct (error_object this message received s) as [e s1 | e s1 | n s1];
    try done.
  simpl in C.
  destruct (error_dispatch_run this
              (if is_undefined forceThrow then VBool false else forceThrow)
              e s1) as (s2 & _ & D).
  destruct (is_undefined (type_of (heap s1) this)).
  - by destruct D as [-> _].
  - destruct (_ || _); destruct D as [-> D]; simpl; [done|].
    exists e. by rewrite D, C.
Qed.

End ErrorChannel.

(** The claim C1 as it is written fails on a field whose type is unset and
    whose configuration does not ask to ignore errors: the process is
    ended all the same. *)
Lemma error_exits_without_suppression :
  type_of (heap fresh_field_state) 0 = VUndefined
  /\ suppressed (heap fresh_field_state) 0 = false
  /\ exit_code (_error 0 (VStr "invalid") VUndefined VUndefined fresh_field_state)
     = Some 2%Z.
Proof. vm_compute. done. Qed.

(** ** Write-once attributes (claim C7) *)

Section WriteOnce.
Context {RT : Runtime}.

(** C7: on a field whose configuration is set, an assignment to [config]
    is the call of [_error] and nothing else: the error is thrown, or its
    stack is written to the console, or the process is ended; and
    whichever way the call ends the stored configuration is what it was.
    The same holds for [type] on a field whose type is set, where the
    process is never ended. *)
Theorem write_once (this : loc) (v : value) (s : state) :
  (is_undefined (slot (heap s) this "_config") = false ->
   config_set this v s
   = (_error this (VStr "config can not be changed!") VUndefined VUndefined ;;;
      ret tt) s
   /\ reported s (config_set this v s)
   /\ slot (heap (final (config_set this v s))) this "_config"
      = slot (heap s) this "_config")
  /\ (is_undefined (type_of (heap s) this) = false ->
      type_set this v s
      = (_error this (VStr "type can not be changed!") v VUndefined ;;; ret tt) s
      /\ reported s (type_set this v s)
      /\ exit_code (type_set this v s) = None
      /\ type_of (heap (final (type_set this v s))) this
         = type_of (heap s) this).
Proof.
  assert (R : forall m r,
    reported s ((_error this m r VUndefined ;;; ret tt) s)).
  { intros m r. pose proof (error_is_reported this m r VUndefined s) as H.
    unfold bind. by destruct (_error this m r VUndefined s). }
  split; intros H.
  - assert (E : config_set this v s
                = (_error this (VStr "config can not be changed!") VUndefined
                     VUndefined ;;; ret tt) s).
    { unfold config_set, bind at 1, read. simpl. by rewrite H. }
    split; [done|]. rewrite E. split; [apply R|]. apply grows_slot.
    apply allocs_bind; [apply allocs__error | intros; apply allocs_ret].
  - assert (E : type_set this v s
                = (_error this (VStr "type can not be changed!") v VUndefined
                   ;;; ret tt) s).
    { unfold type_set, bind at 1, type_get, read. simpl. by rewrite H. }
    split; [done|]. rewrite E. split; [apply R|]. split.
    + unfold bind.
      destruct (_error this (VStr "type can not be changed!") v VUndefined s)
        as [r s' | e s' | n s'] eqn:X; try done.
      apply error_exit_only_unset in X as [_ X]. by rewrite X in H.
    + apply grows_slot.
      apply allocs_bind; [apply allocs__error | intros; apply allocs_ret].
Qed.

End WriteOnce.

Lemma write_once_witness :
  (is_undefined (slot (heap typed_field_state) 0 "_config") = false
   /\ is_undefined (type_of (heap typed_field_state) 0) = false)
  /\ thrown (config_set 0 (VRef 1) typed_field_state)
     = thrown (_error 0 (VStr "config can not be changed!") VUndefined VUndefined
                 typed_field_state)
  /\ slot (heap (final (config_set 0 (VRef 1) typed_field_state))) 0 "_config"
     = VRef 1
  /\ type_of (heap (final (type_set 0 (VStr "number") typed_field_state))) 0
     = VStr "text".
Proof.
  assert (Hc : is_undefined (slot (heap typed_field_state) 0 "_config") = false)
    by (vm_compute; reflexivity).
  assert (Ht : is_undefined (type_of (heap typed_field_state) 0) = false)
    by (vm_compute; reflexivity).
  split; [done|].
  destruct (write_once 0 (VRef 1) typed_field_state) as [W1 _].
  destruct (write_once 0 (VStr "number") typed_field_state) as [_ W2].
  destruct (W1 Hc) as (E1 & _ & S1). destruct (W2 Ht) as (_ & _ & _ & S2).
  split; [|split].
  - rewrite E1. unfold bind.
    by destruct (_error 0 _ VUndefined VUndefined typed_field_state).
  - rewrite S1. vm_compute. reflexivity.
  - rewrite S2. vm_compute. reflexivity.
Defined.

(** ** Construction (claims C8 and C10) *)

Section Construction.
Context {RT : Runtime}.

Lemma put_own_run s l o key v :
  heap s !! l = Some o -> o_frozen o = false ->
  put_own l key v s
  = Ret tt (mkState (alter (with_props (own_put key v)) l (heap s)) (console s)).
Proof.
  intros Hl Hf. unfold put_own, bind, get_heap. by rewrite Hl, Hf.
Qed.

Lemma bind_ret {A B} (c : js A) (k : A -> js B) s a s' :
  c s = Ret a s' -> bind c k s = k a s'.
Proof. intros H. unfold bind. by rewrite H. Qed.

Lemma alter_at {X} (f : X -> X) (l : list X) (i : nat) (x : X) :
  l !! i = Some x -> alter f i l = <[i := f x]> l.
Proof.
  intros H. apply list_eq. intros j. destruct (decide (i = j)) as [<-|Hne].
  - rewrite list_lookup_alter_eq, H. simpl.
    by rewrite list_lookup_insert_eq by (by eapply lookup_lt_Some).
  - by rewrite list_lookup_alter_ne, list_lookup_insert_ne.
Qed.

Lemma is_array_insert h l o o' v :
  h !! l = Some o -> o_kind o' = o_kind o ->
  is_array (<[l := o']> h) v = is_array h v.
Proof.
  intros Hl Hk. unfold is_array, kind_of. destruct v as [| | | | |c]; try done.
  destruct (decide (c = l)) as [->|Hne].
  - rewrite list_lookup_insert_eq by (by eapply lookup_lt_Some).
    rewrite Hl. simpl. by rewrite Hk.
  - by rewrite list_lookup_insert_ne.
Qed.

Lemma name_set_run s this o n :
  heap s !! this = Some o -> o_frozen o = false -> n <> "" ->
  name_set this (VStr n) s
  = Ret tt (mkState (alter (with_props (own_put "_name" (VStr n))) this (heap s))
                    (console s)).
Proof.
  intros Hl Hf Hn. unfold name_set, _checkName.
  assert (Hlen : Nat.ltb (String.length n) 1 = false) by (by destruct n).
  rewrite Hlen. unfold bind, ret. simpl. by apply put_own_run with o.
Qed.

Lemma config_set_run s this o config :
  heap s !! this = Some o -> o_frozen o = false ->
  own_get "_config" (o_props o) = VUndefined ->
  typeof config = TObject -> is_array (heap s) config = false ->
  config_set this config s
  = Ret tt (mkState (alter (with_props (own_put "_config" config)) this (heap s))
                    (console s)).
Proof.
  intros Hl Hf Hc Ho Ha. unfold config_set, bind, read, get_heap, slot.
  rewrite Hl, Hc. simpl. rewrite Ho, Ha. simpl. by apply put_own_run with o.
Qed.

Lemma is_array_alter h l f v :
  (forall o, o_kind (f o) = o_kind o) ->
  is_array (alter f l h) v = is_array h v.
Proof.
  intros Hk. unfold is_array, kind_of. destruct v as [| | | | |c]; try done.
  destruct (decide (l = c)) as [->|Hne].
  - rewrite list_lookup_alter_eq. destruct (h !! c); simpl; by rewrite ?Hk.
  - by rewrite list_lookup_alter_ne.
Qed.

Lemma init_slots s this cls n v config :
  heap s !! this = Some (mkObj (KField cls) [] [] false) ->
  n <> "" -> typeof config = TObject -> is_array (heap s) config = false ->
  (name_set this (VStr n) ;;;
   config_set this config ;;;
   when (negb (is_undefined v)) (value_set this v) ;;;
   _originalValue_set this v ;;;
   ret this) s
  = Ret this (mkState (<[this := field_object cls (VStr n) config v]> (heap s))
                      (console s)).
Proof.
  intros Hthis Hn Hobj Harr.
  erewrite bind_ret; [| by eapply name_set_run].
  erewrite bind_ret;
    [| eapply config_set_run; simpl;
       [by rewrite list_lookup_alter_eq, Hthis | done | done | done
       | by rewrite is_array_alter]].
  simpl. rewrite list_alter_alter_eq.
  unfold value_set, _originalValue_set.
  destruct (is_undefined v) eqn:U; simpl.
  - erewrite bind_ret; [| reflexivity].
    erewrite bind_ret;
      [| eapply put_own_run; simpl; [by rewrite list_lookup_alter_eq, Hthis | done]].
    simpl. rewrite list_alter_alter_eq. unfold ret. f_equal. f_equal.
    rewrite (alter_at _ _ _ _ Hthis). f_equal.
    unfold field_object, field_props. rewrite U. reflexivity.
  - erewrite bind_ret;
      [| eapply put_own_run; simpl; [by rewrite list_lookup_alter_eq, Hthis | done]].
    simpl. rewrite list_alter_alter_eq.
    erewrite bind_ret;
      [| eapply put_own_run; simpl; [by rewrite list_lookup_alter_eq, Hthis | done]].
    simpl. rewrite list_alter_alter_eq. unfold ret. f_equal. f_equal.
    rewrite (alter_at _ _ _ _ Hthis). f_equal.
    unfold field_object, field_props. rewrite U. reflexivity.
Qed.

Lemma put_member_object s c o key v :
  heap s !! c = Some o -> o_kind o = KObject \/ o_kind o = KRecord ->
  o_frozen o = false ->
  put_member (VRef c) key v s
  = Ret tt (mkState (alter (with_props (own_put key v)) c (heap s)) (console s)).
Proof.
  intros Hc Hk Hf. unfold put_member, bind, read, kind_of. rewrite Hc. simpl.
  destruct Hk as [-> | ->]; by apply put_own_run with o.
Qed.

Lemma put_member_strict s c o v :
  heap s !! c = Some o -> o_kind o <> KArray -> o_frozen o = false ->
  put_member (VRef c) "strict" v s
  = Ret tt (mkState (alter (with_props (own_put "strict" v)) c (heap s))
                    (console s)).
Proof.
  intros Hc Hk Hf. unfold put_member, bind, read, kind_of. rewrite Hc. simpl.
  destruct (o_kind o); try done; simpl; by apply put_own_run with o.
Qed.

Lemma lift_run {A} (f : list obj -> res A) s a :
  f (heap s) = Ok a -> lift f s = Ret a s.
Proof. intros H. unfold lift. by rewrite H. Qed.

Lemma get_member_strict h c o :
  h !! c = Some o ->
  get_member h (VRef c) "strict" = Ok (own_get "strict" (o_props o)).
Proof. intros H. simpl. rewrite H. by destruct (o_kind o). Qed.

Lemma Field_new_config s cls n v c o :
  heap s !! c = Some o -> o_kind o <> KArray -> n <> "" ->
  o_frozen o = false
  \/ strict_eq (own_get "strict" (o_props o)) (VBool true) = true ->
  Field_new cls (VStr n) v (VRef c) s
  = Ret (length (heap s))
        (mkState (<[c := normalize_strict o]> (heap s)
                  ++ [field_object cls (VStr n) (VRef c) v])
                 (console s)).
Proof.
  intros Hc Hk Hn Hf.
  assert (Hlt : c < length (heap s)) by (by eapply lookup_lt_Some).
  unfold Field_new. erewrite bind_ret; [| reflexivity].
  simpl. erewrite bind_ret; [| reflexivity].
  erewrite bind_ret;
    [| apply lift_run; cbn [heap]; apply get_member_strict;
       by apply lookup_app_l_Some].
  set (F0 := mkObj (KField cls) [] [] false).
  assert (Hnew : forall f, alter f c (heap s ++ [F0]) !! length (heap s) = Some F0).
  { intros f. rewrite list_lookup_alter_ne by lia.
    by rewrite lookup_app_r, Nat.sub_diag by done. }
  assert (Hfin : forall f X,
    <[length (heap s) := X]> (alter f c (heap s ++ [F0]))
    = <[c := f o]> (heap s) ++ [X]).
  { intros f X. rewrite alter_app_l by done.
    rewrite insert_app_r_alt by (by rewrite length_alter).
    rewrite length_alter, Nat.sub_diag. simpl.
    by rewrite (alter_at _ _ _ _ Hc). }
  unfold normalize_strict.
  destruct (strict_eq (own_get "strict" (o_props o)) (VBool true)) eqn:S; simpl.
  - erewrite bind_ret; [| reflexivity].
    rewrite <- (list_alter_id id (heap s ++ [F0]) c) by done.
    erewrite init_slots; simpl; [| apply Hnew | done | done |].
    + by rewrite Hfin.
    + rewrite list_alter_id by done. unfold is_array, kind_of.
      rewrite lookup_app_l by done. rewrite Hc. simpl. by destruct (o_kind o).
  - destruct Hf as [Hf | Hf]; [| congruence].
    erewrite bind_ret;
      [| eapply put_member_strict; simpl;
         [by apply lookup_app_l_Some | done | done]].
    erewrite init_slots; simpl; [| apply Hnew | done | done |].
    + by rewrite Hfin.
    + rewrite is_array_alter by done. unfold is_array, kind_of.
      rewrite lookup_app_l by done. rewrite Hc. simpl. by destruct (o_kind o).
Qed.

Lemma Field_new_default s cls n v :
  n <> "" ->
  Field_new cls (VStr n) v VUndefined s
  = Ret (length (heap s))
        (mkState (heap s
                  ++ [field_object cls (VStr n) (VRef (S (length (heap s)))) v;
                      mkObj KObject [] [("strict", VBool false)] false])
                 (console s)).
Proof.
  intros Hn.
  unfold Field_new. erewrite bind_ret; [| reflexivity].
  simpl. erewrite bind_ret; [| reflexivity].
  simpl. rewrite length_app. simpl. rewrite Nat.add_1_r.
  set (F0 := mkObj (KField cls) [] [] false).
  set (C0 := mkObj KObject [] [] false).
  assert (H1 : ((heap s ++ [F0]) ++ [C0]) !! S (length (heap s)) = Some C0).
  { rewrite lookup_app_r by (rewrite length_app; simpl; lia).
    rewrite length_app. simpl. by replace (S _ - _) with 0 by lia. }
  erewrite bind_ret;
    [| apply lift_run; cbn [heap]; apply get_member_strict; exact H1].
  simpl.
  erewrite bind_ret; [| eapply put_member_strict; simpl; [exact H1 | done | done]].
  erewrite init_slots; simpl; [| | done | done |].
  - f_equal. f_equal. rewrite alter_app_r_alt by (rewrite length_app; simpl; lia).
    rewrite length_app. simpl. replace (S _ - _) with 0 by lia. simpl.
    rewrite <- app_assoc. simpl.
    rewrite insert_app_r_alt by done. by rewrite Nat.sub_diag.
  - rewrite list_lookup_alter_ne by lia. rewrite <- app_assoc. simpl.
    by rewrite lookup_app_r, Nat.sub_diag by done.
  - rewrite is_array_alter by done. unfold is_array, kind_of. by rewrite H1.
Qed.

Lemma Field_new_bad_name cls name v config s :
  typeof name <> TString ->
  Field_new cls name v config s
  = match to_string (heap (store_at_name_check cls config s)) name with
    | Ok text => Throw (not_a_string_error text) (store_at_name_check cls config s)
    | Err e => Throw e (store_at_name_check cls config s)
    end.
Proof.
  intros Hn. unfold Field_new, store_at_name_check.
  erewrite bind_ret; [| reflexivity].
  assert (Ht : jstype_eqb (typeof name) TString = false)
    by (by destruct name).
  destruct (is_undefined config) eqn:U.
  - erewrite bind_ret; [| reflexivity]. simpl. rewrite Ht. simpl.
    unfold bind, lift. simpl. rewrite <- app_assoc. simpl.
    by destruct (to_string _ name).
  - erewrite bind_ret; [| reflexivity]. simpl. rewrite Ht. simpl.
    unfold bind, lift. simpl.
    by destruct (to_string _ name).
Qed.

Lemma to_string_primitive h v :
  (forall l, v <> VRef l) -> exists text, forall h', to_string h' v = Ok text /\ to_string h v = Ok text.
Proof.
  intros Hv. destruct v as [| |[]|x|t|l]; try (eexists; intros; split; reflexivity).
  by destruct (Hv l).
Qed.

(** C8, as the code has it: with a non-empty string as name, and the
    configuration left out or an object that is not an array and takes
    the assignment of [strict] (it is not frozen) or has [strict: true]
    already, construction succeeds and [name] reads that string.  With a
    name that is not a string construction always fails, and it fails
    with an error named [UninitializedFieldError] whose message ends with
    the text of the name whenever the name has a text, as every name that
    is not an object has, and every plain object without a property
    [toString] of its own. *)
Theorem construction_by_name (cls : string) (name v config : value) (s : state) :
  (forall n, name = VStr n -> n <> "" -> config_ok (heap s) config ->
     exists this s', Field_new cls name v config s = Ret this s'
                     /\ name_get this s' = Ret (VStr n) s')
  /\ (typeof name <> TString ->
      let s' := store_at_name_check cls config s in
      (exists e, Field_new cls name v config s = Throw e s')
      /\ (forall text, to_string (heap s') name = Ok text ->
            Field_new cls name v config s = Throw (not_a_string_error text) s')
      /\ ((forall l, name <> VRef l) ->
          exists text, to_string (heap s') name = Ok text)
      /\ (forall l o, name = VRef l -> heap s !! l = Some o ->
                      o_kind o = KObject ->
                      own_has "toString" (o_props o) = false ->
                      to_string (heap s') name = Ok "[object Object]")).
Proof.
  split.
  - intros n -> Hn [-> | (c & o & -> & Hc & Hk & Hf)].
    + rewrite Field_new_default by done. do 2 eexists. split; [reflexivity|].
      unfold name_get, read, name_of, slot. simpl.
      rewrite lookup_app_r, Nat.sub_diag by done. simpl.
      unfold field_props. simpl. reflexivity.
    + erewrite Field_new_config by eauto. do 2 eexists. split; [reflexivity|].
      unfold name_get, read, name_of, slot. simpl.
      rewrite lookup_app_r by (by rewrite length_insert).
      rewrite length_insert, Nat.sub_diag. reflexivity.
  - intros Hn s'. pose proof (Field_new_bad_name cls name v config s Hn) as E.
    fold s' in E. repeat split.
    + destruct (to_string (heap s') name); eauto.
    + intros text Ht. by rewrite Ht in E.
    + intros Hp. destruct (to_string_primitive (heap s') name Hp) as [text Ht].
      exists text. apply (Ht (heap s')).
    + intros l o -> Hl Hk Ht. unfold to_string, s', store_at_name_check. simpl.
      rewrite (lookup_app_l_Some _ _ _ _ Hl). by rewrite Hk, Ht.
Qed.

Lemma own_get_own_set key v props :
  own_has key props = true -> own_get key (own_set key v props) = v.
Proof.
  induction props as [|[k w] rest IH]; simpl; [done|].
  destruct (String.eqb k key) eqn:E; simpl.
  - by rewrite E.
  - rewrite E. apply IH.
Qed.

Lemma own_get_own_add i key v props :
  own_has key props = false -> own_get key (own_add i key v props) = v.
Proof.
  induction props as [|[k w] rest IH]; simpl.
  - by rewrite String.eqb_refl.
  - destruct (String.eqb k key) eqn:E; simpl; [done|]. intros H.
    destruct i as [n|]; simpl.
    + destruct (array_index k) as [m|]; simpl.
      * destruct (Nat.ltb m n); simpl; rewrite ?E, ?String.eqb_refl; auto.
      * by rewrite String.eqb_refl.
    + rewrite E. auto.
Qed.

Lemma own_get_own_put key v props : own_get key (own_put key v props) = v.
Proof.
  unfold own_put. destruct (own_has key props) eqn:H.
  - by apply own_get_own_set.
  - by apply own_get_own_add.
Qed.


End Construction.

(** ** [copy()] (claim C6) *)

Section Copy.
Context {RT : Runtime}.

Lemma normalize_value_defined v : is_undefined (normalize_value v) = false.
Proof.
  unfold normalize_value.
  destruct (strict_eq v (VNum 0) || strict_eq v (VBool false)) eqn:E.
  - by destruct v.
  - destruct (truthy v) eqn:T; [by destruct v | done].
Qed.

Lemma normalize_value_idem v :
  normalize_value (normalize_value v) = normalize_value v.
Proof.
  assert (H : normalize_value v = v \/ normalize_value v = VNull).
  { unfold normalize_value. destruct (_ || _); [by left|].
    destruct (truthy v); [by left | by right]. }
  destruct H as [H | H]; rewrite H; [exact H | done].
Qed.

Lemma copy_run s this F cls n c o :
  heap s !! this = Some F -> o_kind F = KField cls ->
  own_get "_name" (o_props F) = VStr n -> n <> "" ->
  own_get "_config" (o_props F) = VRef c ->
  heap s !! c = Some o -> o_kind o = KObject -> o_frozen o = false ->
  copy this s
  = Ret (length (heap s))
        (mkState (<[c := normalize_strict o]> (heap s)
                  ++ [copy_object cls (heap s) this])
                 (console s)).
Proof.
  intros Hthis HF Hname Hn Hconf Hc Hk Hf.
  assert (Hne : this <> c) by (intros ->; congruence).
  assert (Hlt : this < length (heap s)) by (by eapply lookup_lt_Some).
  unfold copy.
  erewrite bind_ret; [| reflexivity].
  erewrite bind_ret; [| reflexivity].
  erewrite bind_ret;
    [| unfold config_get, bind, read, slot; rewrite Hthis, Hconf; reflexivity].
  erewrite bind_ret; [| reflexivity].
  unfold name_of, slot at 1. rewrite Hthis, Hname.
  unfold constructor_name. rewrite Hthis. simpl. rewrite HF.
  erewrite bind_ret;
    [| eapply Field_new_config; eauto; by rewrite Hk].
  erewrite bind_ret; [| reflexivity].
  erewrite bind_ret;
    [| eapply put_own_run; simpl;
       [ rewrite lookup_app_r by (by rewrite length_insert);
         by rewrite length_insert, Nat.sub_diag
       | done ]].
  unfold ret. simpl. f_equal. f_equal.
  rewrite alter_app_r_alt by (by rewrite length_insert).
  rewrite length_insert, Nat.sub_diag. simpl. f_equal. f_equal.
  unfold copy_object, field_object, field_props, with_props. simpl.
  unfold value_of. rewrite normalize_value_defined. simpl.
  unfold name_of, original_of, slot.
  rewrite lookup_app_l by (by rewrite length_insert).
  rewrite list_lookup_insert_ne by done. rewrite Hthis, Hname, Hconf.
  reflexivity.
Qed.


End Copy.

(** ** Construction and copy on concrete inputs *)

Lemma construction_by_name_witness :
  (exists this s',
     Field_new "Field" (VStr "Name") (VStr "Alice") VUndefined empty_state
     = Ret this s'
     /\ name_get this s' = Ret (VStr "Name") s')
  /\ thrown (Field_new "Field" (VNum 123) VUndefined VUndefined empty_state)
     = Some (not_a_string_error "123").
Proof.
  split.
  - apply (proj1 (construction_by_name "Field" (VStr "Name") (VStr "Alice")
                    VUndefined empty_state) "Name" eq_refl); [done | by left].
  - destruct (proj2 (construction_by_name "Field" (VNum 123) VUndefined
                       VUndefined empty_state)) as (_ & H & _); [done|].
    rewrite (H "123"); [reflexivity | vm_compute; reflexivity].
Defined.

(** The claim C8 as it is written fails on a name that is a field without
    a value: to put the name into the message the constructor renders it,
    the field renders itself with [toString], and [toString] calls a
    method of its value, which reads [null].  What reaches the caller is
    that [TypeError].  And a non-empty string as name is not enough for
    construction to succeed: with an array as configuration the setter of
    [config] reports an error on a field that has no type yet, which ends
    the process. *)
Lemma construction_with_field_as_name :
  ename <$> thrown (run (inner <- Field_new "Field" (VStr "a") VUndefined VUndefined ;;
                         Field_new "Field" (VRef inner) VUndefined VUndefined))
  = Some "TypeError"
  /\ exit_code (run (config <- alloc (mkObj KArray [] [] false) ;;
                     Field_new "Field" (VStr "Name") (VNum 1) config))
     = Some 2%Z.
Proof. split; vm_compute; reflexivity. Qed.





(** ** The value to save (claim C2) *)

Section SaveValue.
Context {RT : Runtime}.


Lemma jstype_eqb_eq a b : jstype_eqb a b = true <-> a = b.
Proof. destruct a, b; simpl; split; congruence. Qed.

Lemma to_string_not_object h v :
  (forall l, v <> VRef l) -> exists text, to_string h v = Ok text.
Proof.
  intros Hv. destruct v as [| |[]|x|t|l]; try (eexists; reflexivity).
  by destruct (Hv l).
Qed.

Lemma to_number_not_object h v :
  (forall l, v <> VRef l) -> exists x, to_number h v = Ok x.
Proof.
  intros Hv. destruct v as [| |[]|x|t|l]; try (eexists; reflexivity).
  by destruct (Hv l).
Qed.


End SaveValue.



(** ** Change detection (claims C3 and C9) *)

Section ChangeDetection.
Context {RT : Runtime}.

Lemma sort_insert_keyed x l :
  sort_insert (keyed x) (keyed <$> l) = keyed <$> insert_string x l.
Proof.
  unfold keyed. induction l as [|y l IH]; csimpl; [done|].
  destruct (String.leb y x); csimpl; [by rewrite IH | done].
Qed.

Lemma sort_keyed_strings l : sort_keyed (keyed <$> l) = keyed <$> sort_strings l.
Proof.
  unfold sort_keyed, sort_strings.
  change (@nil (string * value)) with (keyed <$> []).
  generalize (@nil string) as acc.
  induction l as [|x l IH]; intros acc; csimpl; [done|].
  by rewrite sort_insert_keyed, IH.
Qed.

Lemma insert_string_perm x l : insert_string x l ≡ₚ x :: l.
Proof.
  induction l as [|y l IH]; csimpl; [done|].
  destruct (String.leb y x); [|done].
  rewrite IH. apply Permutation_swap.
Qed.

Lemma insert_string_sorted x l :
  Sorted String.le l -> Sorted String.le (insert_string x l).
Proof.
  induction l as [|y l IH]; csimpl; intros Hs.
  - by repeat constructor.
  - destruct (String.leb y x) eqn:E.
    + apply Sorted_inv in Hs as [Hs Hd]. constructor; [by apply IH|].
      destruct l as [|z l]; csimpl.
      * constructor. unfold String.le. by rewrite E.
      * destruct (String.leb z x); constructor.
        -- by apply HdRel_inv in Hd.
        -- unfold String.le. by rewrite E.
    + constructor; [done|]. constructor.
      destruct (total String.le x y) as [H | H]; [done|].
      unfold String.le in H. by rewrite E in H.
Qed.

Lemma sort_strings_acc l acc :
  Sorted String.le acc ->
  Sorted String.le (fold_left (fun acc x => insert_string x acc) l acc)
  /\ fold_left (fun acc x => insert_string x acc) l acc ≡ₚ l ++ acc.
Proof.
  revert acc. induction l as [|x l IH]; intros acc Hs; csimpl; [done|].
  destruct (IH (insert_string x acc)) as [H1 H2];
    [by apply insert_string_sorted|].
  split; [done|]. rewrite H2, insert_string_perm.
  by rewrite Permutation_middle.
Qed.

(** Two orders of the same strings sort to the same list. *)
Lemma sort_strings_unique la lb :
  la ≡ₚ lb -> sort_strings la = sort_strings lb.
Proof.
  intros Hp. unfold sort_strings.
  destruct (sort_strings_acc la []) as [Sa Pa]; [constructor|].
  destruct (sort_strings_acc lb []) as [Sb Pb]; [constructor|].
  apply (Sorted_unique String.le); [done..|].
  by rewrite Pa, Pb, !app_nil_r.
Qed.

Lemma sort_strings_short l : length l <= 1 -> sort_strings l = l.
Proof. destruct l as [|x [|y l]]; csimpl; intros; (done || lia). Qed.

Lemma keys_of_strings h l :
  res_map (fun v => s <~ to_string h v ;; Ok (s, v)) (VStr <$> l)
  = Ok (keyed <$> l).
Proof.
  induction l as [|x l IH]; csimpl; [done|].
  by rewrite IH.
Qed.

Lemma filter_defined_strings (l : list string) :
  filter (fun v => is_undefined v = false) (VStr <$> l) = VStr <$> l.
Proof.
  induction l as [|x l IH]; csimpl; [done|].
  rewrite filter_cons_True by done. by rewrite IH.
Qed.

Lemma filter_undefined_strings (l : list string) :
  filter (fun v => is_undefined v = true) (VStr <$> l) = [].
Proof.
  induction l as [|x l IH]; csimpl; [done|].
  by rewrite filter_cons_False by done.
Qed.

Lemma sort_default_strings h l :
  sort_default h (VStr <$> l) = Ok (VStr <$> sort_strings l).
Proof.
  unfold sort_default.
  rewrite filter_defined_strings, filter_undefined_strings, length_fmap.
  destruct (Nat.leb (length l) 1) eqn:E.
  - apply Nat.leb_le in E. by rewrite sort_strings_short, app_nil_r.
  - rewrite keys_of_strings. simpl res_bind.
    rewrite sort_keyed_strings, app_nil_r. f_equal.
    change (map snd) with (fmap (M := list) (@snd string value)).
    by rewrite <- list_fmap_compose.
Qed.

Lemma json_of_strings h l :
  JSON_stringify_elems h (VStr <$> l)
  = Ok (json_wrap "[" "]" "" "" (json_quote <$> l)).
Proof.
  unfold JSON_stringify_elems.
  assert (E : res_map
                (fun e => t <~ json_fuel (depth_bound h) h "" "" e ;;
                          Ok (default "null" t)) (VStr <$> l)
              = Ok (json_quote <$> l)).
  { induction l as [|x l IH]; [done|].
    rewrite !fmap_cons. cbn [res_map]. by rewrite IH. }
  by rewrite E.
Qed.

(** [JSON.stringify([...a].sort())] for an array of the strings [l]. *)
Lemma sorted_json_strings h a o l :
  h !! a = Some o -> o_kind o = KArray -> o_elems o = VStr <$> l ->
  sorted_json h (VRef a)
  = Ok (json_wrap "[" "]" "" "" (json_quote <$> sort_strings l)).
Proof.
  intros Ha Hk He. unfold sorted_json, spread. rewrite Ha, Hk, He. csimpl.
  rewrite sort_default_strings. csimpl. apply json_of_strings.
Qed.

(** The value to save is the current value as it is on a strict field,
    and on any field when the value is not [null] and there is no
    original value or one of the same [typeof] (lines 31-38). *)
Lemma save_value_kept s this :
  let value := value_of (heap s) this in
  let orig := original_of (heap s) this in
  strict_eq (config_prop (heap s) this "strict") (VBool true) = true
  \/ value = VNull
  \/ orig = VUndefined \/ typeof value = typeof orig ->
  exists s1, _saveValue this s = Ret value s1
             /\ grows s s1 /\ console s1 = console s.
Proof.
  intros value orig H. unfold _saveValue.
  destruct (config_member_run this "strict" s) as (s1 & E & G & C).
  erewrite bind_ret by exact E.
  erewrite bind_ret by reflexivity. erewrite bind_ret by reflexivity.
  unfold value_of, original_of. rewrite !(grows_slot _ _ _ _ G).
  fold (value_of (heap s) this) (original_of (heap s) this). fold value orig.
  exists s1. split; [|done].
  destruct (strict_eq (config_prop (heap s) this "strict") (VBool true));
    [done|].
  destruct H as [H | [-> | Ho]]; [done..|].
  assert (Hu : is_undefined value = false) by apply normalize_value_defined.
  rewrite Hu. simpl.
  destruct (strict_eq value VNull) eqn:Hn; [by destruct value|].
  destruct Ho as [-> | ->]; [done|].
  assert (X : jstype_eqb (typeof orig) (typeof orig) = true)
    by (by apply jstype_eqb_eq).
  by rewrite X, orb_true_r.
Qed.

(** X1: on arrays of strings the comparison of [_changed] does not depend on
    the order: a field whose original value is an array of the strings
    [la] and whose value is an array of the same strings in another order
    is not changed. *)
Lemma changed_on_reordered_strings s this a b oa ob la lb :
  original_of (heap s) this = VRef a -> slot (heap s) this "_value" = VRef b ->
  heap s !! a = Some oa -> o_kind oa = KArray -> o_elems oa = VStr <$> la ->
  heap s !! b = Some ob -> o_kind ob = KArray -> o_elems ob = VStr <$> lb ->
  la ≡ₚ lb ->
  exists s', _changed this s = Ret false s'.
Proof.
  intros Hor Hv Ha Hka Hea Hb Hkb Heb Hp.
  assert (Hval : value_of (heap s) this = VRef b).
  { unfold value_of. by rewrite Hv. }
  destruct (save_value_kept s this) as (s1 & Es & G & C).
  { right. right. right. by rewrite Hval, Hor. }
  unfold _changed.
  erewrite bind_ret by reflexivity. erewrite bind_ret by reflexivity.
  erewrite bind_ret by reflexivity.
  rewrite Hor, Hval. unfold is_array, kind_of. rewrite Ha, Hb. simpl.
  rewrite Hka, Hkb. simpl.
  erewrite bind_ret;
    [| apply lift_run; by eapply sorted_json_strings].
  erewrite bind_ret by exact Es. rewrite Hval.
  erewrite bind_ret;
    [| apply lift_run; eapply sorted_json_strings;
       [by eapply grows_lookup | done | done]].
  rewrite (sort_strings_unique la lb Hp), String.eqb_refl. by exists s1.
Qed.

(** A value that reads as itself. *)
Lemma normalize_value_cases v :
  normalize_value v = v
  \/ (normalize_value v = VNull
      /\ (v = VUndefined \/ v = VStr "" \/ is_NaN v = true)).
Proof.
  destruct v as [| |[]|x|t|l]; try (by left); try (right; by auto).
  - unfold normalize_value. simpl. rewrite orb_false_r.
    destruct (PrimFloat.eqb x 0) eqn:E; [by left|].
    unfold PrimFloat.is_zero. change PrimFloat.zero with 0%float. rewrite E.
    simpl. destruct (PrimFloat.is_nan x); [right; by auto | by left].
  - destruct t; [right; by auto | by left].
Qed.

Lemma json_of_number h x :
  JSON_stringify h (VNum x)
  = Ok (Some (if PrimFloat.is_finite x then number_to_string x else "null")).
Proof. reflexivity. Qed.

Lemma json_of_null h : JSON_stringify h VNull = Ok (Some "null").
Proof. reflexivity. Qed.

Lemma strict_eq_refl v : is_NaN v = false -> strict_eq v v = true.
Proof.
  destruct v as [| |b|x|t|l]; simpl; try done.
  - intros _. by destruct b.
  - unfold PrimFloat.is_nan. by destruct (PrimFloat.eqb x x).
  - intros _. apply String.eqb_refl.
  - intros _. apply Nat.eqb_refl.
Qed.

(** A field whose value is what it was at construction is not changed,
    unless that value is [undefined], the empty string, or an array (for
    which the texts of the sorted copies are compared). *)
Lemma changed_when_untouched s this :
  let v := slot (heap s) this "_value" in
  original_of (heap s) this = v ->
  v <> VUndefined -> v <> VStr "" -> is_array (heap s) v = false ->
  exists s', _changed this s = Ret false s'.
Proof.
  intros v Hor Hu He Ha.
  assert (Hval : value_of (heap s) this = normalize_value v) by done.
  unfold _changed.
  erewrite bind_ret by reflexivity. erewrite bind_ret by reflexivity.
  erewrite bind_ret by reflexivity.
  rewrite Hor, Ha. simpl.
  destruct (normalize_value_cases v) as [Hn | [Hn [? | [? | Hnan]]]];
    try done.
  - (* the value reads as it is stored *)
    destruct (save_value_kept s this) as (s1 & Es & G & C).
    { right. right. right. by rewrite Hval, Hor, Hn. }
    erewrite bind_ret by exact Es. rewrite Hval, Hn.
    assert (Hk : is_NaN v = false).
    { destruct v as [| | |x| |]; try done. simpl.
      destruct (PrimFloat.is_nan x) eqn:N; [|done].
      revert Hn. unfold normalize_value. simpl. rewrite N, orb_true_r.
      rewrite orb_false_r.
      destruct (PrimFloat.eqb x 0) eqn:Z; [|done].
      apply float_zero_not_nan in Z. congruence. }
    rewrite strict_eq_refl by done. by exists s1.
  - (* [NaN], which reads [null] *)
    destruct (save_value_kept s this) as (s1 & Es & G & C).
    { right. left. by rewrite Hval. }
    erewrite bind_ret by exact Es. rewrite Hval, Hn.
    destruct v as [| | |x| |] eqn:V; try done.
    cbn [strict_eq negb].
    erewrite bind_ret; [| apply lift_run; apply json_of_number].
    erewrite bind_ret; [| unfold value_get, read; reflexivity].
    unfold value_of. rewrite (grows_slot _ _ _ _ G). fold v. rewrite V, Hn.
    erewrite bind_ret; [| apply lift_run; apply json_of_null].
    exists s1. unfold ret. f_equal.
    simpl in Hnan. unfold PrimFloat.is_finite. by rewrite Hnan.
Qed.

Lemma field_object_slots cls name config v :
  v <> VUndefined ->
  own_get "_value" (o_props (field_object cls name config v)) = v
  /\ own_get "_originalValue_" (o_props (field_object cls name config v)) = v.
Proof.
  intros Hv. unfold field_object, field_props.
  assert (U : is_undefined v = false) by (by destruct v).
  by rewrite U.
Qed.

(** X2: right after its construction with an initial value that is not
    [undefined], not the empty string and not an array, a field is not
    changed. *)
Lemma changed_after_construction s cls n v config :
  n <> "" -> config_ok (heap s) config ->
  v <> VUndefined -> v <> VStr "" -> is_array (heap s) v = false ->
  exists s',
    (f <- Field_new cls (VStr n) v config ;; _changed f) s = Ret false s'.
Proof.
  intros Hn Hc Hu He Ha.
  assert (Hnew : exists this s1 F,
    Field_new cls (VStr n) v config s = Ret this s1
    /\ heap s1 !! this = Some F
    /\ own_get "_value" (o_props F) = v
    /\ own_get "_originalValue_" (o_props F) = v
    /\ is_array (heap s1) v = false).
  { destruct Hc as [-> | (c & o & -> & Hc & Hk & Hf)].
    - rewrite Field_new_default by done. do 3 eexists.
      split; [reflexivity|]. simpl.
      split; [by rewrite lookup_app_r, Nat.sub_diag by done|].
      split; [by apply field_object_slots|].
      split; [by apply field_object_slots|].
      revert Ha. unfold is_array, kind_of. destruct v as [| | | | |l]; try done.
      destruct (decide (l < length (heap s))) as [Hl | Hl].
      + by rewrite lookup_app_l.
      + rewrite (lookup_ge_None_2 (heap s)) by lia. intros _.
        rewrite lookup_app_r by lia.
        destruct (l - length (heap s)) as [|[|k]]; done.
    - erewrite Field_new_config by eauto. do 3 eexists.
      split; [reflexivity|]. simpl.
      split; [rewrite lookup_app_r by (by rewrite length_insert);
              by rewrite length_insert, Nat.sub_diag|].
      split; [by apply field_object_slots|].
      split; [by apply field_object_slots|].
      revert Ha. unfold is_array, kind_of. destruct v as [| | | | |l]; try done.
      destruct (decide (l < length (heap s))) as [Hl | Hl].
      + rewrite lookup_app_l by (by rewrite length_insert).
        destruct (decide (l = c)) as [-> | Hne].
        * rewrite list_lookup_insert_eq by done. rewrite Hc. simpl.
          unfold normalize_strict. by destruct (strict_eq _ _).
        * by rewrite list_lookup_insert_ne.
      + rewrite (lookup_ge_None_2 (heap s)) by lia. intros _.
        rewrite lookup_app_r by (rewrite length_insert; lia).
        rewrite length_insert.
        destruct (l - length (heap s)) as [|k]; done. }
  destruct Hnew as (this & s1 & F & E & HF & Hv & Ho & Ha1).
  erewrite bind_ret by exact E.
  apply changed_when_untouched.
  - unfold original_of, slot. by rewrite HF, Ho, Hv.
  - unfold slot. by rewrite HF, Hv.
  - unfold slot. by rewrite HF, Hv.
  - unfold slot. by rewrite HF, Hv.
Qed.

(** On a field with a configuration, reading a member of the
    configuration leaves the store as it is. *)
Lemma config_member_in_place s this key :
  truthy (slot (heap s) this "_config") = true ->
  config_member this key s = Ret (config_prop (heap s) this key) s.
Proof.
  intros T. unfold config_member, config_get, config_prop, bind, read, lift.
  rewrite T. simpl.
  destruct (get_member_truthy (heap s) _ key T) as [v Hv]. by rewrite Hv.
Qed.

(** X3: an array that is both the original and the current value of a field
    is not a change, when the text of its sorted copy can be made. *)
Lemma changed_when_untouched_array s this text :
  let v := slot (heap s) this "_value" in
  truthy (slot (heap s) this "_config") = true ->
  original_of (heap s) this = v ->
  is_array (heap s) v = true ->
  sorted_json (heap s) v = Ok text ->
  _changed this s = Ret false s.
Proof.
  intros v Hc Hor Ha Ht.
  assert (Hv : exists l, v = VRef l).
  { revert Ha. unfold is_array, kind_of. destruct v; try done. eauto. }
  destruct Hv as [l Hl].
  assert (Hval : value_of (heap s) this = v).
  { unfold value_of. fold v. by rewrite Hl. }
  assert (Es : _saveValue this s = Ret v s).
  { unfold _saveValue.
    erewrite bind_ret by (by apply config_member_in_place).
    erewrite bind_ret by reflexivity. erewrite bind_ret by reflexivity.
    rewrite Hval, Hor, Hl. simpl.
    by destruct (strict_eq (config_prop (heap s) this "strict") (VBool true)). }
  unfold _changed.
  erewrite bind_ret by reflexivity. erewrite bind_ret by reflexivity.
  erewrite bind_ret by reflexivity.
  rewrite Hor, Hval, Ha. simpl.
  erewrite bind_ret by (by apply lift_run).
  erewrite bind_ret by exact Es.
  erewrite bind_ret by (by apply lift_run).
  by rewrite String.eqb_refl.
Qed.
End ChangeDetection.

(** ** Change detection on concrete inputs (claims C3 and C9) *)

(** C3: the claim is that [changed] is false right after construction,
    whatever the initial value, also when there is none.  The code
    answers [true] for a field made without a value, and for one made
    with the empty string: the original value is kept as it was given
    ([undefined], or the empty string) while the current value reads
    [null], and the two differ by [!==] and by their JSON texts. *)
Theorem changed_after_construction_without_value :
  result (run (f <- Field_new "Field" (VStr "Name") VUndefined VUndefined ;;
               _changed f)) = Some true
  /\ result (run (f <- Field_new "Field" (VStr "Name") (VStr "") VUndefined ;;
                  _changed f)) = Some true.
Proof. split; vm_compute; reflexivity. Qed.

(** C9: the claim is that two arrays with the same elements in another
    order never count as a change.  The code sorts both arrays with the
    default order of [sort], which compares the elements as strings and
    keeps elements with equal strings in place: for the objects
    [{id: 'a'}] and [{id: 'b'}], both rendered [[object Object]], the two
    orders stay apart and [changed] is [true]; so it is for [true] and
    ['true']. *)
Theorem changed_on_reordered_objects :
  result (run (a <- alloc (mkObj KObject [] [("id", VStr "a")] false) ;;
               b <- alloc (mkObj KObject [] [("id", VStr "b")] false) ;;
               original <- alloc (mkObj KArray [a; b] [] false) ;;
               reordered <- alloc (mkObj KArray [b; a] [] false) ;;
               f <- new_then_assign (VStr "Links") original reordered ;;
               _changed f)) = Some true
  /\ result (run (original <- alloc (mkObj KArray [VBool true; VStr "true"] [] false) ;;
                  reordered <- alloc (mkObj KArray [VStr "true"; VBool true] [] false) ;;
                  f <- new_then_assign (VStr "Flags") original reordered ;;
                  _changed f)) = Some true.
Proof. split; vm_compute; reflexivity. Qed.

(** ** Deep freeze on concrete inputs (claim C4) *)

(** C4: the claim is that [_deepFreezeValue] leaves its input as it was
    and answers with a frozen value equal to it by structure.  In the
    code the callback of [reduce] answers with the value it assigned and
    not with the object under construction, and the cache of visited
    values is keyed by the strings of the values.  So for [{a: 1}] the
    answer is the number [1]; for [{a: 1, b: 2}] the second assignment is
    made on the number [1] and raises a [TypeError]; and for
    [{a: {x: 1}}] the answer is the inner object of the input itself,
    which the call has frozen in place. *)
Theorem deep_freeze_of_plain_objects :
  result (run (f <- Field_new "Field" (VStr "Name") VUndefined VUndefined ;;
               o <- alloc (mkObj KObject [] [("a", VNum 1)] false) ;;
               _deepFreezeValue f o)) = Some (VNum 1)
  /\ ename <$> thrown (run (f <- Field_new "Field" (VStr "Name") VUndefined VUndefined ;;
                            o <- alloc (mkObj KObject []
                                          [("a", VNum 1); ("b", VNum 2)] false) ;;
                            _deepFreezeValue f o)) = Some "TypeError"
  /\ result (run (f <- Field_new "Field" (VStr "Name") VUndefined VUndefined ;;
                  inner <- alloc (mkObj KObject [] [("x", VNum 1)] false) ;;
                  outer <- alloc (mkObj KObject [] [("a", inner)] false) ;;
                  before <- read (fun h => is_frozen h inner) ;;
                  r <- _deepFreezeValue f outer ;;
                  after <- read (fun h => is_frozen h inner) ;;
                  ret (strict_eq r inner, before, after)))
     = Some (true, false, true).
Proof. repeat split; vm_compute; reflexivity. Qed.

(** On an array of numbers the function does what it is meant to do: the
    answer is a new, frozen array of the same numbers, and the input is
    left as it was. *)
Example deep_freeze_of_an_array_of_numbers :
  result (run (f <- Field_new "Field" (VStr "Name") VUndefined VUndefined ;;
               a <- alloc (mkObj KArray [VNum 1; VNum 2] [] false) ;;
               r <- _deepFreezeValue f a ;;
               h <- get_heap ;;
               ret (strict_eq r a, match r with VRef l => h !! l | _ => None end,
                    is_frozen h a)))
  = Some (false, Some (mkObj KArray [VNum 1; VNum 2] [] true), false).
Proof. vm_compute. reflexivity. Qed.

(** ** What the getters leave of the store *)

Lemma extends_refl s : extends s s.
Proof. exists []. by rewrite app_nil_r. Qed.

Lemma extends_trans s1 s2 s3 : extends s1 s2 -> extends s2 s3 -> extends s1 s3.
Proof. intros [n Hn] [m Hm]. exists (n ++ m). by rewrite Hm, Hn, <- app_assoc. Qed.

Lemma grows_extends s s' : grows s s' -> extends s s'.
Proof. intros [n H]. by eexists. Qed.

Lemma extends_lookup s s' l o :
  extends s s' -> heap s !! l = Some o -> heap s' !! l = Some o.
Proof. intros [n ->] H. by apply lookup_app_l_Some. Qed.

Lemma extends_slot s s' l o key :
  extends s s' -> heap s !! l = Some o -> slot (heap s') l key = slot (heap s) l key.
Proof. intros E H. unfold slot. by rewrite (extends_lookup _ _ _ _ E H), H. Qed.

Section AddsOnly.
Context {A B : Type}.

Lemma adds_only_ret (a : A) : adds_only (ret a).
Proof. intros s. split; [apply extends_refl | done]. Qed.

Lemma adds_only_throw (e : js_error) : adds_only (@throw A e).
Proof. intros s. split; [apply extends_refl | done]. Qed.

Lemma adds_only_read (f : list obj -> A) : adds_only (read f).
Proof. intros s. split; [apply extends_refl | done]. Qed.

Lemma adds_only_lift (f : list obj -> res A) : adds_only (lift f).
Proof.
  intros s. unfold lift. destruct (f (heap s)); (split; [apply extends_refl | done]).
Qed.

Lemma adds_only_bind (c : js A) (k : A -> js B) :
  adds_only c -> (forall a, adds_only (k a)) -> adds_only (bind c k).
Proof.
  intros Hc Hk s. unfold bind. destruct (Hc s) as (E & C & X).
  destruct (c s) as [a s1 | e s1 | n s1]; simpl in *; try done.
  destruct (Hk a s1) as (E' & C' & X').
  split; [by eapply extends_trans|]. split; [congruence | done].
Qed.

Lemma adds_only_frames (c : js A) : allocs c -> silent c -> adds_only c.
Proof.
  intros Ha Hs s. destruct (Hs s) as [X C].
  split; [apply grows_extends, Ha | done].
Qed.

End AddsOnly.

Lemma adds_only_get_heap : adds_only get_heap.
Proof. intros s. split; [apply extends_refl | done]. Qed.

Lemma adds_only_alloc o : adds_only (alloc o).
Proof. intros s. split; [by eexists | done]. Qed.

Section ReadOnly.
Context {RT : Runtime}.

Lemma adds_only_config_member this key : adds_only (config_member this key).
Proof.
  apply adds_only_frames; [apply allocs_config_member | apply silent_config_member].
Qed.

Lemma adds_only_concat v : adds_only (concat_into_empty v).
Proof.
  unfold concat_into_empty. apply adds_only_bind; [apply adds_only_get_heap|].
  intros h. destruct (is_array h v); [|apply adds_only_alloc].
  destruct (spread h v); [apply adds_only_alloc | apply adds_only_throw].
Qed.

Ltac adds_step :=
  match goal with
  | |- adds_only (bind _ _) => apply adds_only_bind; [| intros ?]
  | |- adds_only (if ?b then _ else _) => destruct b
  | |- adds_only (config_member _ _) => apply adds_only_config_member
  | |- adds_only (concat_into_empty _) => apply adds_only_concat
  | |- adds_only (ret _) => apply adds_only_ret
  | |- adds_only (lift _) => apply adds_only_lift
  | |- adds_only (read _) => apply adds_only_read
  | |- adds_only get_heap => apply adds_only_get_heap
  end.

Lemma adds_only_saveValue this : adds_only (_saveValue this).
Proof.
  unfold _saveValue, value_get, _originalValue_get. repeat adds_step.
Qed.

Lemma adds_only_changed this : adds_only (_changed this).
Proof.
  pose proof adds_only_saveValue.
  unfold _changed, value_get, _originalValue_get. repeat (adds_step || done).
Qed.

Lemma adds_only_config_get this : adds_only (config_get this).
Proof.
  apply adds_only_frames; [apply allocs_config_get | apply silent_config_get].
Qed.

(** X4: the getters and the queries of the class change no object that
    exists, write nothing to the console and never end the process:
    whichever way they end, they have at most added objects to the store
    (the empty configuration of a field that has none, and the array
    [_saveValue] makes for an original value that is an array). *)
Theorem getters_add_only (this : loc) (includeName : value) :
  adds_only (_saveValue this) /\ adds_only (_changed this)
  /\ adds_only (config_get this) /\ adds_only (record_get this)
  /\ adds_only (isPrimary this) /\ adds_only (toString this includeName)
  /\ adds_only (value_get this) /\ adds_only (_originalValue_get this)
  /\ adds_only (name_get this) /\ adds_only (type_get this).
Proof.
  pose proof (adds_only_config_get this) as Hc.
  repeat match goal with |- _ /\ _ => split end.
  - apply adds_only_saveValue.
  - apply adds_only_changed.
  - exact Hc.
  - unfold record_get. apply adds_only_bind; [exact Hc|].
    intros c. apply adds_only_lift.
  - unfold isPrimary. apply adds_only_bind; [apply adds_only_config_member|].
    intros p. apply adds_only_ret.
  - unfold toString. apply adds_only_lift.
  - apply adds_only_read.
  - apply adds_only_read.
  - apply adds_only_read.
  - apply adds_only_read.
Qed.

End ReadOnly.

(** ** The value to save, in all cases *)

Section SaveValueCases.
Context {RT : Runtime}.

(** X5: the value to save, in all cases.  On a strict field it is the current
    value.  On any field it is [null] when the current value reads [null].
    Otherwise it is the current value, or [null] (for [NaN] against an
    original value of another type), or a value converted to the [typeof]
    of the original value.  The getter never ends the process, and it
    raises only where an object has to be rendered as a string or read as
    a number, on a field that is not strict. *)
Theorem save_value_cases (this : loc) (s : state) :
  let value := value_of (heap s) this in
  let orig := original_of (heap s) this in
  let strict := strict_eq (config_prop (heap s) this "strict") (VBool true) in
  match _saveValue this s with
  | Ret r s' =>
      (strict = true -> r = value)
      /\ (value = VNull -> r = VNull)
      /\ (r = value
          \/ (r = VNull /\ is_NaN value = true)
          \/ (strict = false /\ typeof r = typeof orig
              /\ typeof value <> typeof orig))
  | Throw e s' =>
      strict = false /\ (exists l, value = VRef l)
      /\ (typeof orig = TString \/ typeof orig = TNumber)
  | Exit _ _ => False
  end.
Proof.
  intros value orig strict.
  unfold _saveValue.
  destruct (config_member_run this "strict" s) as (s1 & E & G & C).
  erewrite bind_ret by exact E.
  erewrite bind_ret by reflexivity. erewrite bind_ret by reflexivity.
  unfold value_of, original_of. rewrite !(grows_slot _ _ _ _ G).
  fold (value_of (heap s) this) (original_of (heap s) this).
  fold value orig strict.
  assert (Hu : is_undefined value = false) by apply normalize_value_defined.
  rewrite Hu. clearbody value orig strict.
  destruct strict; [simpl; by auto|].
  destruct (strict_eq value VNull) eqn:Hn.
  { simpl. destruct value; try done. by auto. }
  assert (Hnn : value <> VNull) by (intros ->; done).
  cbn [orb].
  destruct (is_undefined orig) eqn:Ho; [simpl; by auto|].
  destruct (jstype_eqb (typeof value) (typeof orig)) eqn:Ht; [simpl; by auto|].
  assert (Hty : typeof value <> typeof orig).
  { intros X. apply jstype_eqb_eq in X. congruence. }
  cbn [orb negb andb].
  destruct (is_NaN value) eqn:Hnan.
  { simpl. repeat split; try done. right. by left. }
  destruct (typeof orig) eqn:TO; cbn [jstype_eqb].
  - by destruct orig.
  - (* an object: an array, or something else *)
    unfold bind, get_heap.
    destruct (is_array (heap s1) orig); [|simpl; by auto].
    assert (Ha : is_array (heap s1) value = false).
    { unfold is_array, kind_of. by destruct value. }
    unfold concat_into_empty, bind, get_heap. rewrite Ha. simpl.
    repeat split; try done. right. right. repeat split; try done; by rewrite <- TO.
  - simpl. repeat split; try done. right. right. repeat split; try done; by rewrite <- TO.
  - unfold bind, lift.
    destruct (to_number (heap s1) value) as [x|e] eqn:N; simpl.
    + repeat split; try done. right. right. repeat split; try done; by rewrite <- TO.
    + repeat split; [| by right].
      destruct value as [| |[]| | |l]; try done. eauto.
  - unfold bind, lift.
    destruct (to_string (heap s1) value) as [x|e] eqn:N; simpl.
    + repeat split; try done. right. right. repeat split; try done; by rewrite <- TO.
    + repeat split; [| by left].
      destruct value as [| |[]| | |l]; try done. eauto.
Qed.

End SaveValueCases.

(** ** Change detection on strings *)

Lemma json_unescape_escape c r :
  json_unescape_first (json_escape c +:+ r) = Some (c, r).
Proof.
  destruct c as [[] [] [] [] [] [] [] []]; vm_compute; reflexivity.
Qed.

Lemma string_app_assoc (a b c : string) : (a +:+ b) +:+ c = a +:+ (b +:+ c).
Proof.
  induction a as [|x a IH]; [done|].
  change (String x ((a +:+ b) +:+ c) = String x (a +:+ (b +:+ c))).
  by rewrite IH.
Qed.

Lemma json_escape_all_inj s1 s2 t1 t2 :
  json_escape_all s1 +:+ String dquote t1 = json_escape_all s2 +:+ String dquote t2 ->
  s1 = s2.
Proof.
  revert s2. induction s1 as [|c1 s1 IH]; intros [|c2 s2]; simpl; try done.
  - rewrite string_app_assoc. intros H.
    apply (f_equal json_unescape_first) in H.
    rewrite json_unescape_escape in H. done.
  - rewrite string_app_assoc. intros H.
    apply (f_equal json_unescape_first) in H.
    rewrite json_unescape_escape in H. done.
  - rewrite !string_app_assoc. intros H.
    apply (f_equal json_unescape_first) in H.
    rewrite !json_unescape_escape in H. injection H as -> H.
    f_equal. by apply IH.
Qed.

(** [JSON.stringify] gives different strings different texts. *)
Lemma json_quote_inj s1 s2 : json_quote s1 = json_quote s2 -> s1 = s2.
Proof.
  unfold json_quote. simpl. intros [= H]. by apply json_escape_all_inj in H.
Qed.

Section ChangedText.
Context {RT : Runtime}.

(** X6: on a field whose original value is the string [b] and whose stored
    value is the string [v], [_changed] answers [true] exactly when the
    two differ or [v] is the empty string (which reads [null], also
    against an empty original value). *)
Theorem changed_on_strings (this : loc) (s : state) (b v : string) :
  original_of (heap s) this = VStr b ->
  slot (heap s) this "_value" = VStr v ->
  exists s',
    _changed this s = Ret (String.eqb v "" || negb (String.eqb b v)) s'.
Proof.
  intros Hor Hv.
  unfold _changed.
  erewrite bind_ret by reflexivity. erewrite bind_ret by reflexivity.
  erewrite bind_ret by reflexivity.
  rewrite Hor. cbn [is_array kind_of andb].
  destruct (String.eqb v "") eqn:Ev.
  - (* the value reads [null] *)
    apply String.eqb_eq in Ev. subst v.
    assert (Hval : value_of (heap s) this = VNull).
    { unfold value_of. by rewrite Hv. }
    destruct (save_value_kept s this) as (s1 & Es & G & C).
    { right. by left. }
    erewrite bind_ret by exact Es. rewrite Hval. cbn [strict_eq negb].
    erewrite bind_ret by (apply lift_run; reflexivity).
    erewrite bind_ret by reflexivity.
    unfold value_of. rewrite (grows_slot _ _ _ _ G), Hv.
    erewrite bind_ret by (apply lift_run; reflexivity).
    by exists s1.
  - assert (Hval : value_of (heap s) this = VStr v).
    { unfold value_of. rewrite Hv. unfold normalize_value. simpl. by rewrite Ev. }
    destruct (save_value_kept s this) as (s1 & Es & G & C).
    { right. right. right. by rewrite Hval, Hor. }
    erewrite bind_ret by exact Es. rewrite Hval. cbn [strict_eq orb].
    destruct (String.eqb b v) eqn:Eb; cbn [negb]; [by exists s1|].
    erewrite bind_ret by (apply lift_run; reflexivity).
    erewrite bind_ret by reflexivity.
    assert (Hnv : normalize_value (VStr v) = VStr v).
    { revert Hval. unfold value_of. by rewrite Hv. }
    unfold value_of. rewrite (grows_slot _ _ _ _ G), Hv, Hnv.
    exists s1.
    erewrite bind_ret by (apply lift_run; reflexivity).
    unfold ret. f_equal. apply bool_decide_eq_true.
    intros [= H]. apply json_escape_all_inj in H. subst b.
    by rewrite String.eqb_refl in Eb.
Qed.

End ChangedText.

(** ** Assignments to [value], [name], [config] and [type] *)

Lemma own_get_own_set_ne k key v props :
  k <> key -> own_get k (own_set key v props) = own_get k props.
Proof.
  intros Hne. induction props as [|[k' w] rest IH]; simpl.
  - destruct (String.eqb key k) eqn:E; [|done].
    apply String.eqb_eq in E. congruence.
  - destruct (String.eqb k' key) eqn:E; simpl.
    + apply String.eqb_eq in E. subst k'.
      destruct (String.eqb key k) eqn:E'; [|done].
      apply String.eqb_eq in E'. congruence.
    + by rewrite IH.
Qed.

Lemma own_get_own_add_ne i k key v props :
  k <> key -> own_get k (own_add i key v props) = own_get k props.
Proof.
  intros Hne.
  assert (Hk : String.eqb key k = false).
  { destruct (String.eqb key k) eqn:E; [|done].
    apply String.eqb_eq in E. congruence. }
  induction props as [|[k' w] rest IH]; simpl; [by rewrite Hk|].
  destruct i as [n|]; simpl.
  - destruct (array_index k') as [m|]; simpl.
    + destruct (Nat.ltb m n); simpl; [by rewrite IH | by rewrite Hk].
    + by rewrite Hk.
  - by rewrite IH.
Qed.

Lemma own_get_own_put_ne k key v props :
  k <> key -> own_get k (own_put key v props) = own_get k props.
Proof.
  intros Hne. unfold own_put. destruct (own_has key props).
  - by apply own_get_own_set_ne.
  - by apply own_get_own_add_ne.
Qed.

(** The store after a write to the own property [key] of the object at
    [l]. *)
Lemma slot_after_put h l o key v k :
  h !! l = Some o ->
  slot (alter (with_props (own_put key v)) l h) l k
  = if String.eqb k key then v else slot h l k.
Proof.
  intros Hl. unfold slot. rewrite list_lookup_alter_eq, Hl. simpl.
  destruct (String.eqb k key) eqn:E.
  - apply String.eqb_eq in E. subst k. apply own_get_own_put.
  - apply own_get_own_put_ne. intros ->. by rewrite String.eqb_refl in E.
Qed.

Section Assignments.
Context {RT : Runtime}.

(** X7: an assignment to [value] is stored as it is given and read back
    through the getter, which makes [null] of an empty one; it touches
    neither the original value nor any other slot of the field, nor any
    other object.  On a frozen field the assignment raises a [TypeError]
    and nothing changes. *)
Theorem value_assignment (this : loc) (o : obj) (v : value) (s : state) :
  heap s !! this = Some o ->
  if o_frozen o then
    exists e, value_set this v s = Throw e s /\ ename e = "TypeError"
  else
    exists s',
      value_set this v s = Ret tt s'
      /\ value_get this s' = Ret (normalize_value v) s'
      /\ original_of (heap s') this = original_of (heap s) this
      /\ (forall key, key <> "_value" ->
                      slot (heap s') this key = slot (heap s) this key)
      /\ (forall l, l <> this -> heap s' !! l = heap s !! l)
      /\ console s' = console s.
Proof.
  intros Hl. destruct (o_frozen o) eqn:Hf.
  - eexists. unfold value_set, put_own, bind, get_heap. rewrite Hl, Hf. done.
  - eexists. split; [by eapply put_own_run|]. cbn [heap console].
    split.
    { unfold value_get, read, value_of. cbn [heap].
      rewrite (slot_after_put _ _ _ _ _ _ Hl). by rewrite String.eqb_refl. }
    split.
    { unfold original_of. by rewrite (slot_after_put _ _ _ _ _ _ Hl). }
    split.
    { intros key Hk. rewrite (slot_after_put _ _ _ _ _ _ Hl).
      destruct (String.eqb key "_value") eqn:E; [|done].
      by apply String.eqb_eq in E. }
    split; [|done].
    intros l Hne. by rewrite list_lookup_alter_ne.
Qed.

(** When [_error] returns, it returns [undefined]. *)
Lemma error_returns_undefined this m r ft s v s' :
  _error this m r ft s = Ret v s' -> v = VUndefined.
Proof.
  unfold _error, bind.
  destruct (error_object this m r s) as [e s1 | e s1 | n s1]; try done.
  destruct (error_dispatch_run this
              (if is_undefined ft then VBool false else ft) e s1)
    as (s2 & _ & D).
  destruct (is_undefined (type_of (heap s1) this)).
  - destruct D as [-> _]. done.
  - destruct (_ || _); destruct D as [-> _]; [done|]. by intros [= <- _].
Qed.

(** X8: [name] is not written once: on a field that is not frozen, a string
    of at least one character replaces the name, whatever it was, and no
    other slot changes.  Any other name is reported by [_error] (thrown,
    logged, or the end of the process) and the name is left as it was. *)
Theorem name_assignment (this : loc) (o : obj) (name : value) (s : state) :
  heap s !! this = Some o ->
  (forall n, name = VStr n -> n <> "" -> o_frozen o = false ->
     exists s',
       name_set this name s = Ret tt s'
       /\ name_get this s' = Ret name s'
       /\ (forall key, key <> "_name" ->
                       slot (heap s') this key = slot (heap s) this key)
       /\ console s' = console s)
  /\ (typeof name <> TString \/ name = VStr "" ->
      reported s (name_set this name s)
      /\ name_of (heap (final (name_set this name s))) this
         = name_of (heap s) this).
Proof.
  intros Hl. split.
  - intros n -> Hn Hf. eexists. split; [by eapply name_set_run|].
    cbn [heap console]. split.
    { unfold name_get, read, name_of. cbn [heap].
      rewrite (slot_after_put _ _ _ _ _ _ Hl). by rewrite String.eqb_refl. }
    split; [|done].
    intros key Hk. rewrite (slot_after_put _ _ _ _ _ _ Hl).
    destruct (String.eqb key "_name") eqn:E; [|done].
    by apply String.eqb_eq in E.
  - intros Hbad.
    set (m := VStr "name must be a string with a minimum length of 1 character.").
    assert (E : name_set this name s
                = (ok <- _error this m name VUndefined ;;
                   when (truthy ok) (put_own this "_name" name)) s).
    { unfold name_set, _checkName.
      destruct Hbad as [Hbad | ->]; [by destruct name | done]. }
    rewrite E. unfold bind.
    pose proof (error_is_reported this m name VUndefined s) as R.
    pose proof (allocs__error this m name VUndefined s) as G.
    destruct (_error this m name VUndefined s) as [v s1 | e s1 | n s1] eqn:X;
      simpl in *.
    + apply error_returns_undefined in X. subst v. simpl.
      split; [done|]. by apply grows_slot.
    + split; [done|]. by apply grows_slot.
    + split; [done|]. by apply grows_slot.
Qed.

(** X9: the first assignment to [config], on a field that is not frozen.  An
    object that is not an array is stored, and so is [null], whose
    [typeof] is [object]: the field then still reads an empty
    configuration, but takes no other configuration any more.  Anything
    else is reported by [_error], and nothing is stored. *)
Theorem config_first_assignment (this : loc) (o : obj) (config : value)
    (s : state) :
  heap s !! this = Some o -> o_frozen o = false ->
  slot (heap s) this "_config" = VUndefined ->
  if jstype_eqb (typeof config) TObject && negb (is_array (heap s) config) then
    exists s',
      config_set this config s = Ret tt s'
      /\ slot (heap s') this "_config" = config
      /\ console s' = console s
      /\ (config = VNull ->
          config_get this s'
          = Ret (VRef (length (heap s')))
                (mkState (heap s' ++ [empty_object]) (console s'))
          /\ forall c,
               config_set this c s'
               = (_error this (VStr "config can not be changed!") VUndefined
                    VUndefined ;;; ret tt) s')
  else
    config_set this config s
    = (_error this (VStr "config should be key-value Object.") config
         VUndefined ;;; ret tt) s
    /\ reported s (config_set this config s)
    /\ slot (heap (final (config_set this config s))) this "_config"
       = VUndefined.
Proof.
  intros Hl Hf Hc.
  assert (Hc' : own_get "_config" (o_props o) = VUndefined).
  { revert Hc. unfold slot. by rewrite Hl. }
  destruct (jstype_eqb (typeof config) TObject && negb (is_array (heap s) config))
    eqn:B.
  - apply andb_true_iff in B as [B1 B2].
    apply jstype_eqb_eq in B1. apply negb_true_iff in B2.
    eexists. split; [by eapply config_set_run|]. cbn [heap console].
    assert (Hs : slot (alter (with_props (own_put "_config" config)) this (heap s))
                   this "_config" = config).
    { rewrite (slot_after_put _ _ _ _ _ _ Hl). by rewrite String.eqb_refl. }
    split; [exact Hs|]. split; [done|].
    intros ->. split.
    + unfold config_get, bind, read. cbn [heap]. by rewrite Hs.
    + intros c. unfold config_set, bind at 1, read. cbn [heap]. by rewrite Hs.
  - assert (E : config_set this config s
                = (_error this (VStr "config should be key-value Object.") config
                     VUndefined ;;; ret tt) s).
    { unfold config_set, bind at 1, read. rewrite Hc. cbn [is_undefined strict_eq negb].
      unfold bind at 1, get_heap.
      destruct (jstype_eqb (typeof config) TObject); simpl in *.
      - apply negb_false_iff in B. by rewrite B.
      - done. }
    split; [exact E|]. rewrite E. split.
    + pose proof (error_is_reported this
                    (VStr "config should be key-value Object.") config
                    VUndefined s) as R.
      unfold bind. by destruct (_error this _ config VUndefined s).
    + rewrite <- Hc. apply grows_slot.
      apply allocs_bind; [apply allocs__error | intros; apply allocs_ret].
Qed.

(** X10: the first assignment to [type], on a field that is not frozen: the
    type is stored and read back, and no other slot changes.  From then
    on (the type not being [undefined]) no call of [_error] on the field
    ends the process. *)
Theorem type_first_assignment (this : loc) (o : obj) (t : value) (s : state) :
  heap s !! this = Some o -> o_frozen o = false ->
  type_of (heap s) this = VUndefined ->
  exists s',
    type_set this t s = Ret tt s'
    /\ type_get this s' = Ret t s'
    /\ (forall key, key <> "_type" ->
                    slot (heap s') this key = slot (heap s) this key)
    /\ console s' = console s
    /\ (t <> VUndefined ->
        forall m r ft, exit_code (_error this m r ft s') = None).
Proof.
  intros Hl Hf Ht.
  assert (E : type_set this t s = put_own this "_type" t s).
  { unfold type_set, bind, type_get, read. by rewrite Ht. }
  eexists. split; [rewrite E; by eapply put_own_run|]. cbn [heap console].
  assert (Hs : type_of (alter (with_props (own_put "_type" t)) this (heap s)) this
               = t).
  { unfold type_of. rewrite (slot_after_put _ _ _ _ _ _ Hl).
    by rewrite String.eqb_refl. }
  split; [unfold type_get, read; cbn [heap]; by rewrite Hs|].
  split.
  { intros key Hk. rewrite (slot_after_put _ _ _ _ _ _ Hl).
    destruct (String.eqb key "_type") eqn:X; [|done].
    by apply String.eqb_eq in X. }
  split; [done|].
  intros Hne m r ft.
  match goal with |- exit_code (_error _ _ _ _ ?s1) = None => set (s' := s1) end.
  destruct (_error this m r ft s') as [v s2 | e s2 | n s2] eqn:X; try done.
  apply error_exit_only_unset in X as [_ X]. unfold s' in X. cbn [heap] in X.
  congruence.
Qed.

End Assignments.

(** ** Every call of [_error] (claim C1), and [_warn] *)

Section Diagnostics.
Context {RT : Runtime}.

Lemma allocs_collect_info this r : allocs (collect_info this r).
Proof.
  pose proof allocs_config_get. pose proof allocs_config_member.
  unfold collect_info, print_received,
    record_table_member, record_id, record_get, type_get, name_get, toString.
  frames.
Qed.

Lemma silent_collect_info this r : silent (collect_info this r).
Proof.
  pose proof silent_config_get. pose proof silent_config_member.
  unfold collect_info, print_received,
    record_table_member, record_id, record_get, type_get, name_get, toString.
  frames.
Qed.

Lemma allocs_info_block this r i : allocs (info_block this r i).
Proof.
  pose proof allocs_config_get. pose proof allocs_config_member.
  unfold info_block, name_get. frames.
Qed.

Lemma silent_info_block this r i : silent (info_block this r i).
Proof.
  pose proof silent_config_get. pose proof silent_config_member.
  unfold info_block, name_get. frames.
Qed.

Lemma collect_info_type this r s i s' :
  collect_info this r s = Ret i s' -> i_type i = diagnostic_type (heap s) this.
Proof.
  unfold collect_info, bind, type_get, read, get_heap, ret.
  destruct (record_table_member this "base" s) as [b s1| |]; try done.
  destruct (record_table_member this "name" s1) as [t s2| |]; try done.
  destruct (record_id this s2) as [d s3| |]; try done.
  match goal with
  | |- context [match ?c s3 with _ => _ end] => destruct (c s3) as [c0 s4| |]
  end; try done.
  destruct (print_received this r s4) as [p s5| |]; try done.
  by intros [= <- _].
Qed.

Lemma record_get_plain this s :
  exists s', record_get this s = Ret (config_prop (heap s) this "__record__") s'
             /\ grows s s' /\ console s' = console s.
Proof. apply (config_member_run this "__record__" s). Qed.

Lemma grows_name_of s s' this :
  grows s s' -> name_of (heap s') this = name_of (heap s) this.
Proof. apply grows_slot. Qed.

Lemma grows_plain_field s s' this :
  grows s s' -> plain_field (heap s') this = plain_field (heap s) this.
Proof.
  intros G. unfold plain_field.
  by rewrite (grows_config_prop _ _ _ _ G), (grows_name_of _ _ _ G).
Qed.

Lemma record_table_member_plain this key s :
  truthy (config_prop (heap s) this "__record__") = false ->
  exists s', record_table_member this key s = Ret VUndefined s'
             /\ grows s s' /\ console s' = console s.
Proof.
  intros T. unfold record_table_member.
  destruct (record_get_plain this s) as (s1 & E & G & C).
  erewrite bind_ret by exact E. rewrite T. by exists s1.
Qed.

Lemma record_id_plain this s :
  truthy (config_prop (heap s) this "__record__") = false ->
  exists s', record_id this s = Ret VUndefined s'
             /\ grows s s' /\ console s' = console s.
Proof.
  intros T. unfold record_id.
  destruct (record_get_plain this s) as (s1 & E & G & C).
  erewrite bind_ret by exact E. rewrite T. by exists s1.
Qed.

Lemma isRecord_primitive h r : is_object r = false -> _isRecord h r = Ok false.
Proof. by destruct r. Qed.

Lemma get_constructor_name_primitive h r :
  is_object r = false ->
  get_constructor_name h r = Ok (VStr (constructor_name h r)).
Proof. by destruct r. Qed.

Lemma print_received_primitive this r s :
  is_object r = false ->
  exists p, print_received this r s = Ret p s.
Proof.
  intros Hr. unfold print_received, bind, get_heap, lift.
  rewrite (isRecord_primitive _ _ Hr).
  assert (H2 : instanceof_Field (heap s) r = false) by (by destruct r).
  rewrite H2.
  destruct r as [| |[]| | |l]; try done; eexists; reflexivity.
Qed.

Lemma to_string_primitive_ok h v :
  is_object v = false -> exists text, to_string h v = Ok text.
Proof. intros H. apply to_string_not_object. intros l ->. done. Qed.

(** On a plain field and for a received value that is not an object,
    what the diagnostics collect can always be collected. *)
Lemma collect_info_plain this r s :
  truthy (config_prop (heap s) this "__record__") = false ->
  is_object r = false ->
  exists i s', collect_info this r s = Ret i s'
               /\ grows s s' /\ console s' = console s
               /\ i_base i = VUndefined /\ i_table i = VUndefined
               /\ i_record i = VUndefined /\ is_object (i_class i) = false.
Proof.
  intros T Hr. unfold collect_info.
  erewrite bind_ret by reflexivity. erewrite bind_ret by reflexivity.
  destruct (record_table_member_plain this "base" s T) as (s1 & E1 & G1 & C1).
  erewrite bind_ret by exact E1.
  rewrite <- (grows_config_prop _ _ _ _ G1) in T.
  destruct (record_table_member_plain this "name" s1 T) as (s2 & E2 & G2 & C2).
  erewrite bind_ret by exact E2.
  rewrite <- (grows_config_prop _ _ _ _ G2) in T.
  destruct (record_id_plain this s2 T) as (s3 & E3 & G3 & C3).
  erewrite bind_ret by exact E3.
  assert (Ec : exists c,
    (if negb (is_undefined r) && negb (strict_eq r VNull) && negb (is_NaN r)
     then lift (fun h => get_constructor_name h r)
     else ret VUndefined) s3 = Ret c s3 /\ is_object c = false).
  { destruct (negb (is_undefined r) && negb (strict_eq r VNull)
              && negb (is_NaN r)).
    - exists (VStr (constructor_name (heap s3) r)). split; [|reflexivity].
      apply lift_run. by apply get_constructor_name_primitive.
    - by exists VUndefined. }
  destruct Ec as (c & Ec & Hc).
  erewrite bind_ret by exact Ec.
  destruct (print_received_primitive this r s3 Hr) as (p & E4).
  erewrite bind_ret by exact E4.
  do 2 eexists. split; [reflexivity|].
  split; [eauto using grows_trans|]. split; [congruence | done].
Qed.

Lemma info_block_plain this r i s :
  is_object (name_of (heap s) this) = false ->
  i_base i = VUndefined -> i_table i = VUndefined -> i_record i = VUndefined ->
  is_object (i_class i) = false ->
  exists block s', info_block this r i s = Ret block s'
                   /\ grows s s' /\ console s' = console s.
Proof.
  intros Hn Hb Ht Hd Hc. unfold info_block. rewrite Hb, Ht, Hd.
  erewrite bind_ret by reflexivity. erewrite bind_ret by reflexivity.
  erewrite bind_ret by reflexivity. erewrite bind_ret by reflexivity.
  destruct (to_string_primitive_ok (heap s) _ Hn) as [text Htext].
  erewrite bind_ret by (apply lift_run; exact Htext).
  destruct (config_member_run this "strict" s) as (s1 & E & G & C).
  erewrite bind_ret by exact E.
  erewrite bind_ret by reflexivity.
  assert (Ec : exists line,
    (if is_undefined (i_class i) then ret ""
     else c <- lift (fun h => to_string h (i_class i)) ;;
          ret (newline +:+ "Class: " +:+ c)) s1 = Ret line s1).
  { destruct (is_undefined (i_class i)); [by eexists|].
    destruct (to_string_primitive_ok (heap s1) _ Hc) as [c Htc].
    erewrite bind_ret by (apply lift_run; exact Htc). by eexists. }
  destruct Ec as (line & Ec).
  erewrite bind_ret by exact Ec.
  do 2 eexists. split; [reflexivity | done].
Qed.

(** The error object of [_error] on a plain field, for a message that is
    a string and a received value that is not an object. *)
Lemma error_object_plain this m r s :
  plain_field (heap s) this = true -> is_object r = false ->
  exists block s',
    error_object this (VStr m) r s
    = Ret (mkError (diagnostic_type (heap s) this +:+ "Error") (m +:+ block)) s'
    /\ grows s s' /\ console s' = console s.
Proof.
  intros Hp Hr. apply andb_true_iff in Hp as [T Hn].
  apply negb_true_iff in T. apply negb_true_iff in Hn.
  unfold error_object.
  destruct (collect_info_plain this r s T Hr)
    as (i & s1 & E1 & G1 & C1 & Hb & Ht & Hd & Hcl).
  erewrite bind_ret by exact E1.
  erewrite bind_ret by reflexivity.
  rewrite <- (grows_name_of _ _ _ G1) in Hn.
  destruct (info_block_plain this r i s1 Hn Hb Ht Hd Hcl)
    as (block & s2 & E2 & G2 & C2).
  erewrite bind_ret by exact E2.
  rewrite (collect_info_type _ _ _ _ _ E1).
  exists block, s2. split; [reflexivity|].
  split; [eauto using grows_trans | congruence].
Qed.

(** C1, as the code has it.  Every call of [_error] first builds the
    error, and that can raise: the texts of the record, of the name, of
    the message and of the received value are asked for, and a received
    [Field] without a value, for one, has none.  What is raised then
    reaches the caller whatever the type and the configuration: the
    process goes on and nothing is written.  Once the error is built, the
    process is ended, with status 2, exactly when the type of the field
    is unset, whether or not the configuration asks for errors to be
    ignored and whatever [forceThrow] is; with the type set the error is
    thrown if [forceThrow] is [true] or the configuration does not ask
    to ignore errors, and is only logged otherwise.  So no call ends the
    process but with status 2 and for a field without a type.  The error
    can always be built on a field without a record whose name is not
    an object, for a message that is a string and a received value that
    is not an object. *)
Theorem error_outcomes (this : loc) (message received forceThrow : value)
    (s : state) :
  (forall code s', _error this message received forceThrow s = Exit code s' ->
                   code = 2%Z /\ type_of (heap s) this = VUndefined)
  /\ match error_object this message received s with
     | Ret e _ =>
         exists s',
           if is_undefined (type_of (heap s) this) then
             _error this message received forceThrow s = Exit 2 s'
             /\ console s' = console s ++ [LogStack e; LogError exit_notice]
           else if strict_eq forceThrow (VBool true)
                   || negb (suppressed (heap s) this)
           then _error this message received forceThrow s = Throw e s'
                /\ console s' = console s
           else _error this message received forceThrow s = Ret VUndefined s'
                /\ console s' = console s ++ [LogStack e]
     | Throw e s1 =>
         _error this message received forceThrow s = Throw e s1
         /\ console s1 = console s
     | Exit _ _ => False
     end
  /\ (forall m, message = VStr m ->
       plain_field (heap s) this = true -> is_object received = false ->
       exists block s1,
         error_object this message received s
         = Ret (mkError (diagnostic_type (heap s) this +:+ "Error")
                        (m +:+ block)) s1).
Proof.
  split; [|split].
  - intros code s'. apply error_exit_only_unset.
  - pose proof (allocs_error_object this message received s) as G.
    pose proof (silent_error_object this message received s) as [X C].
    destruct (error_object this message received s) as [e s1 | e s1 | n s1]
      eqn:Hbuilt; simpl in G, X, C; [| | done].
    + set (ft := if is_undefined forceThrow then VBool false else forceThrow).
      assert (Hft : strict_eq ft (VBool true)
                    = strict_eq forceThrow (VBool true)).
      { unfold ft. by destruct forceThrow. }
      assert (E : _error this message received forceThrow s
                  = error_dispatch this ft e s1).
      { unfold _error, bind. by rewrite Hbuilt. }
      destruct (error_dispatch_run this ft e s1) as (s' & G' & D).
      unfold type_of, suppressed in *.
      rewrite (grows_slot _ _ _ _ G), (grows_config_prop _ _ _ _ G), Hft, C
        in D.
      exists s'. rewrite E.
      destruct (is_undefined (slot (heap s) this "_type")); [done|].
      destruct (_ || _); done.
    + split; [|done]. unfold _error, bind. by rewrite Hbuilt.
  - intros m -> Hp Hr.
    destruct (error_object_plain this m received s Hp Hr)
      as (block & s1 & E & _).
    by exists block, s1.
Qed.

(** X11: [_warn] never ends the process and never raises the alarm of
    [_error]: it changes no object of the store, and when it returns it
    has written one warning to the console and answers [undefined]; the
    warning opens with the class of the field (or [UninitializedField])
    followed by [Warning: ].  It can only fail where a text cannot be
    made, and that writes nothing.  On a plain field, for a message that
    is a string and a received value that is not an object, it returns. *)
Theorem warn_only_warns (this : loc) (message received : value) (s : state) :
  grows s (final (_warn this message received s))
  /\ match _warn this message received s with
     | Ret v s' =>
         v = VUndefined
         /\ exists text,
              console s'
              = console s
                ++ [LogWarn (diagnostic_type (heap s) this +:+ "Warning: "
                             +:+ text)]
     | Throw _ s' => console s' = console s
     | Exit _ _ => False
     end
  /\ (plain_field (heap s) this = true -> is_object received = false ->
      is_object message = false ->
      exists s', _warn this message received s = Ret VUndefined s').
Proof.
  split; [|split].
  - pose proof (allocs_collect_info this received) as H1.
    pose proof (allocs_info_block this received) as H2.
    revert s. change (allocs (_warn this message received)).
    unfold _warn. frames.
  - unfold _warn, bind.
    pose proof (silent_collect_info this received s) as [X1 C1].
    destruct (collect_info this received s) as [i s1 | e s1 | n s1] eqn:E1;
      try done.
    simpl in C1. unfold lift.
    destruct (to_string (heap s1) message) as [m|e]; [|done].
    pose proof (silent_info_block this received i s1) as [X2 C2].
    destruct (info_block this received i s1) as [b s2 | e s2 | n s2];
      simpl in *; try done; [|congruence].
    split; [done|]. exists (m +:+ b).
    rewrite (collect_info_type _ _ _ _ _ E1). unfold log. simpl.
    by rewrite C2, C1.
  - intros Hp Hr Hm. apply andb_true_iff in Hp as [T Hn].
    apply negb_true_iff in T. apply negb_true_iff in Hn.
    unfold _warn.
    destruct (collect_info_plain this received s T Hr)
      as (i & s1 & E1 & G1 & C1 & Hb & Ht & Hd & Hcl).
    erewrite bind_ret by exact E1.
    destruct (to_string_primitive_ok (heap s1) _ Hm) as [text Htext].
    erewrite bind_ret by (apply lift_run; exact Htext).
    rewrite <- (grows_name_of _ _ _ G1) in Hn.
    destruct (info_block_plain this received i s1 Hn Hb Ht Hd Hcl)
      as (block & s2 & E2 & G2 & C2).
    erewrite bind_ret by exact E2.
    erewrite bind_ret by reflexivity.
    eexists. reflexivity.
Qed.

(** X12: what a caller can catch.  On a plain field whose type is set, for a
    received value that is not an object, [_error] throws unless the
    configuration asks to ignore errors (and always with [forceThrow]);
    the error thrown is named after the class of the field, followed by
    [Error], and its message opens with the message given. *)
Theorem error_thrown_is_named (this : loc) (o : obj) (cls m : string)
    (received forceThrow : value) (s : state) :
  heap s !! this = Some o -> o_kind o = KField cls ->
  is_undefined (type_of (heap s) this) = false ->
  plain_field (heap s) this = true -> is_object received = false ->
  strict_eq forceThrow (VBool true) || negb (suppressed (heap s) this) = true ->
  exists block s',
    _error this (VStr m) received forceThrow s
    = Throw (mkError (cls +:+ "Error") (m +:+ block)) s'
    /\ console s' = console s.
Proof.
  intros Hl Hk Ht Hp Hr Hthrow.
  destruct (error_object_plain this m received s Hp Hr)
    as (block & s1 & E & G & C).
  assert (Hd : diagnostic_type (heap s) this = cls).
  { unfold diagnostic_type. rewrite Ht. unfold constructor_name.
    rewrite Hl. simpl. by rewrite Hk. }
  rewrite Hd in E.
  unfold _error. erewrite bind_ret by exact E.
  set (ft := if is_undefined forceThrow then VBool false else forceThrow).
  assert (Hft : strict_eq ft (VBool true) = strict_eq forceThrow (VBool true)).
  { unfold ft. by destruct forceThrow. }
  destruct (error_dispatch_run this ft (mkError (cls +:+ "Error") (m +:+ block)) s1)
    as (s2 & G2 & D).
  unfold type_of, suppressed in *.
  rewrite (grows_slot _ _ _ _ G), (grows_config_prop _ _ _ _ G), Hft, Ht, Hthrow
    in D.
  destruct D as [D C2]. exists block, s2. split; [exact D | congruence].
Qed.

(** X13: a field under construction has no type yet, so an invalid name ends
    the process: with the empty string as name, and a configuration the
    constructor accepts, [new Field] never returns and never throws; it
    exits with status 2 after writing the error and the notice to the
    console. *)
Theorem construction_with_empty_name (cls : string) (v config : value)
    (s : state) :
  config_ok (heap s) config ->
  exists s' e,
    Field_new cls (VStr "") v config s = Exit 2 s'
    /\ console s' = console s ++ [LogStack e; LogError exit_notice]
    /\ ename e = "UninitializedFieldError".
Proof.
  intros Hc.
  set (m := "name must be a string with a minimum length of 1 character.").
  assert (Hname : forall s0 this cfg,
    heap s0 !! this = Some (mkObj (KField cls) [] [] false) ->
    exists s' e,
      (name_set this (VStr "") ;;;
       config_set this cfg ;;;
       when (negb (is_undefined v)) (value_set this v) ;;;
       _originalValue_set this v ;;;
       ret this) s0 = Exit 2 s'
      /\ console s' = console s0 ++ [LogStack e; LogError exit_notice]
      /\ ename e = "UninitializedFieldError").
  { intros s0 this cfg Hthis.
    assert (Hp : plain_field (heap s0) this = true).
    { unfold plain_field, config_prop, name_of, slot. by rewrite Hthis. }
    assert (Ht : type_of (heap s0) this = VUndefined).
    { unfold type_of, slot. by rewrite Hthis. }
    destruct (error_object_plain this m (VStr "") s0 Hp eq_refl)
      as (block & s1 & E & G & C).
    assert (Hd : diagnostic_type (heap s0) this = "UninitializedField").
    { unfold diagnostic_type. by rewrite Ht. }
    rewrite Hd in E.
    destruct (error_dispatch_run this (VBool false)
                (mkError ("UninitializedField" +:+ "Error") (m +:+ block)) s1)
      as (s2 & G2 & D).
    unfold type_of in *. rewrite (grows_slot _ _ _ _ G), Ht in D.
    destruct D as [D C2].
    exists s2. eexists. split; [|split; [rewrite C2, C; reflexivity | reflexivity]].
    unfold name_set, _checkName. cbn [String.length Nat.ltb Nat.leb].
    unfold _error. cbn [is_undefined strict_eq].
    unfold bind at 1. unfold bind at 1. unfold bind at 1.
    fold m. rewrite E. by rewrite D. }
  unfold Field_new. erewrite bind_ret by reflexivity.
  destruct Hc as [-> | (c & o & -> & Hc & Hk & Hf)].
  - cbn [is_undefined strict_eq].
    erewrite bind_ret by reflexivity. cbn [typeof jstype_eqb negb].
    set (F0 := mkObj (KField cls) [] [] false).
    set (C0 := mkObj KObject [] [] false).
    assert (H1 : ((heap s ++ [F0]) ++ [C0]) !! length (heap s ++ [F0]) = Some C0).
    { by rewrite lookup_app_r, Nat.sub_diag by done. }
    erewrite bind_ret;
      [| apply lift_run; cbn [heap]; apply get_member_strict; exact H1].
    cbn [own_get o_props C0 strict_eq negb when].
    erewrite bind_ret;
      [| eapply put_member_strict; cbn [heap]; [exact H1 | done | done]].
    cbn [heap console].
    destruct (Hname
      (mkState (alter (with_props (own_put "strict" (VBool false)))
                  (length (heap s ++ [F0])) ((heap s ++ [F0]) ++ [C0]))
               (console s)) (length (heap s)) (VRef (length (heap s ++ [F0]))))
      as (s' & e & H).
    { cbn [heap]. rewrite list_lookup_alter_ne by (rewrite length_app; simpl; lia).
      rewrite <- app_assoc. by rewrite lookup_app_r, Nat.sub_diag by done. }
    exists s', e. exact H.
  - cbn [is_undefined strict_eq].
    erewrite bind_ret by reflexivity. cbn [typeof jstype_eqb negb].
    set (F0 := mkObj (KField cls) [] [] false).
    assert (Hlt : c < length (heap s)) by (by eapply lookup_lt_Some).
    assert (H1 : (heap s ++ [F0]) !! c = Some o) by (by apply lookup_app_l_Some).
    assert (HF : (heap s ++ [F0]) !! length (heap s) = Some F0).
    { by rewrite lookup_app_r, Nat.sub_diag by done. }
    erewrite bind_ret;
      [| apply lift_run; cbn [heap]; apply get_member_strict; exact H1].
    destruct (strict_eq (own_get "strict" (o_props o)) (VBool true)) eqn:S;
      cbn [negb when].
    + erewrite bind_ret by reflexivity.
      destruct (Hname (mkState (heap s ++ [F0]) (console s)) (length (heap s))
                  (VRef c) HF) as (s' & e & H).
      exists s', e. exact H.
    + destruct Hf as [Hf | Hf]; [| congruence].
      erewrite bind_ret;
        [| eapply put_member_strict; cbn [heap]; [exact H1 | done | done]].
      destruct (Hname
        (mkState (alter (with_props (own_put "strict" (VBool false))) c
                    (heap s ++ [F0])) (console s)) (length (heap s)) (VRef c))
        as (s' & e & H).
      { cbn [heap]. by rewrite list_lookup_alter_ne by lia. }
      exists s', e. exact H.
Qed.

End Diagnostics.

(** ** [toString] *)

Section Rendering.
Context {RT : Runtime}.



End Rendering.

(** ** Construction and [copy()], further *)

Section ConstructionMore.
Context {RT : Runtime}.

Lemma field_object_reads cls name config v :
  own_get "_name" (o_props (field_object cls name config v)) = name
  /\ own_get "_config" (o_props (field_object cls name config v)) = config
  /\ own_get "_type" (o_props (field_object cls name config v)) = VUndefined
  /\ normalize_value (own_get "_value" (o_props (field_object cls name config v)))
     = normalize_value v
  /\ own_get "_originalValue_" (o_props (field_object cls name config v)) = v.
Proof.
  unfold field_object, field_props. destruct v; done.
Qed.

(** X15: what a successful construction leaves: a new instance of the class
    with the name given, the value given as both original and current
    value (the latter read through the getter), no type, and a
    configuration whose [strict] is a boolean: [true] only when the
    caller's configuration had [strict: true], [false] otherwise, also
    for truthy values such as [1] or ['true'].  Nothing is written to the
    console. *)
Theorem construction_postcondition (cls n : string) (v config : value)
    (s : state) :
  n <> "" -> config_ok (heap s) config ->
  exists this s' c,
    Field_new cls (VStr n) v config s = Ret this s'
    /\ heap s !! this = None
    /\ o_kind <$> heap s' !! this = Some (KField cls)
    /\ name_of (heap s') this = VStr n
    /\ original_of (heap s') this = v
    /\ value_of (heap s') this = normalize_value v
    /\ type_of (heap s') this = VUndefined
    /\ slot (heap s') this "_config" = VRef c
    /\ (config = VUndefined \/ config = VRef c)
    /\ config_prop (heap s') this "strict"
       = VBool (strict_eq (match config with
                           | VRef c0 => slot (heap s) c0 "strict"
                           | _ => VUndefined
                           end) (VBool true))
    /\ console s' = console s.
Proof.
  intros Hn [-> | (c & o & -> & Hc & Hk & Hf)].
  - rewrite Field_new_default by done.
    set (F := field_object cls (VStr n) (VRef (S (length (heap s)))) v).
    set (C := mkObj KObject [] [("strict", VBool false)] false).
    assert (HF : (heap s ++ [F; C]) !! length (heap s) = Some F).
    { by rewrite lookup_app_r, Nat.sub_diag by done. }
    assert (HC : (heap s ++ [F; C]) !! S (length (heap s)) = Some C).
    { rewrite lookup_app_r by lia. by replace (S _ - _) with 1 by lia. }
    destruct (field_object_reads cls (VStr n) (VRef (S (length (heap s)))) v)
      as (R1 & R2 & R3 & R4 & R5). fold F in R1, R2, R3, R4, R5.
    exists (length (heap s)). eexists. exists (S (length (heap s))).
    split; [reflexivity|]. cbn [heap console].
    split; [by apply lookup_ge_None_2|].
    split; [by rewrite HF|].
    unfold name_of, original_of, value_of, type_of, config_prop, slot.
    rewrite HF, R1, R2, R3, R4, R5. repeat split; try done; auto.
    cbn [truthy]. rewrite (get_member_strict _ _ _ HC). done.
  - erewrite Field_new_config by eauto.
    assert (Hlt : c < length (heap s)) by (by eapply lookup_lt_Some).
    set (F := field_object cls (VStr n) (VRef c) v).
    set (h' := <[c := normalize_strict o]> (heap s)).
    assert (Hlen : length h' = length (heap s)) by apply length_insert.
    assert (HF : (h' ++ [F]) !! length (heap s) = Some F).
    { rewrite lookup_app_r by lia. by rewrite Hlen, Nat.sub_diag. }
    assert (HC : (h' ++ [F]) !! c = Some (normalize_strict o)).
    { rewrite lookup_app_l by lia. unfold h'. by rewrite list_lookup_insert_eq. }
    destruct (field_object_reads cls (VStr n) (VRef c) v)
      as (R1 & R2 & R3 & R4 & R5). fold F in R1, R2, R3, R4, R5.
    exists (length (heap s)). eexists. exists c.
    split; [reflexivity|]. cbn [heap console].
    split; [by apply lookup_ge_None_2|].
    split; [by rewrite HF|].
    assert (Hcp : config_prop (h' ++ [F]) (length (heap s)) "strict"
                  = own_get "strict" (o_props (normalize_strict o))).
    { unfold config_prop, slot. rewrite HF, R2. cbn [truthy].
      by rewrite (get_member_strict _ _ _ HC). }
    rewrite Hcp.
    unfold name_of, original_of, value_of, type_of.
    unfold slot at 1 2 3 4 5.
    rewrite HF, R1, R2, R3, R4, R5. repeat split; try done; auto.
    unfold slot. rewrite Hc. unfold normalize_strict.
    destruct (strict_eq (own_get "strict" (o_props o)) (VBool true)) eqn:S.
    + by destruct (own_get "strict" (o_props o)) as [| |[]| | |].
    + cbn [o_props with_props]. by rewrite own_get_own_put.
Qed.

(** X16: a configuration that is not an object makes construction raise a
    [TypeError], before anything is stored in the new instance: [null]
    has no property [strict] to read, and on a boolean, a number or a
    string the assignment of [strict] is refused, the class being strict
    mode code. *)
Theorem construction_with_primitive_config (cls n : string) (v config : value)
    (s : state) :
  is_object config = false -> config <> VUndefined ->
  exists e,
    Field_new cls (VStr n) v config s
    = Throw e (mkState (heap s ++ [mkObj (KField cls) [] [] false]) (console s))
    /\ ename e = "TypeError".
Proof.
  intros Hp Hu. unfold Field_new. erewrite bind_ret by reflexivity.
  destruct config as [| |b|x|t|l]; try done;
    (erewrite bind_ret by reflexivity); cbn [typeof jstype_eqb negb];
    eexists; (split; [reflexivity | done]).
Qed.

End ConstructionMore.

Lemma bind_agree {A B} (c1 c2 : js A) (k1 k2 : A -> js B) s :
  c1 s = c2 s ->
  (forall a s1, c2 s = Ret a s1 -> k1 a s1 = k2 a s1) ->
  bind c1 k1 s = bind c2 k2 s.
Proof.
  intros Hc Hk. unfold bind. rewrite Hc.
  destruct (c2 s) as [a s1| |]; [by apply Hk | done..].
Qed.

Lemma lift_inv {A} (f : list obj -> res A) s a s1 :
  lift f s = Ret a s1 -> s1 = s.
Proof. unfold lift. destruct (f (heap s)); [by intros [= _ <-] | done]. Qed.

Section CopyMore.
Context {RT : Runtime}.

(** On a field whose type is unset, a call of [_error] ends the process
    once the error is built, and hands on what was raised when it cannot
    be built. *)
Lemma error_on_untyped this m r ft s :
  type_of (heap s) this = VUndefined ->
  match error_object this m r s with
  | Ret e _ =>
      exists s2, _error this m r ft s = Exit 2 s2
                 /\ console s2 = console s ++ [LogStack e; LogError exit_notice]
  | Throw e s1 => _error this m r ft s = Throw e s1
  | Exit _ _ => False
  end.
Proof.
  intros Ht.
  pose proof (allocs_error_object this m r s) as G.
  pose proof (silent_error_object this m r s) as [X C].
  destruct (error_object this m r s) as [e s1 | e s1 | n s1] eqn:B;
    simpl in G, X, C; [| | done].
  - destruct (error_dispatch_run this
                (if is_undefined ft then VBool false else ft) e s1)
      as (s2 & _ & D).
    unfold type_of in *. rewrite (grows_slot _ _ _ _ G), Ht in D.
    destruct D as [D C2]. exists s2. split; [|by rewrite C2, C].
    unfold _error, bind. by rewrite B.
  - unfold _error, bind. by rewrite B.
Qed.

(** On a plain field whose type is unset, [_error] ends the process. *)
Lemma error_exits_on_untyped this m r ft s :
  plain_field (heap s) this = true -> is_object r = false ->
  type_of (heap s) this = VUndefined ->
  exists s', _error this (VStr m) r ft s = Exit 2 s'.
Proof.
  intros Hp Hr Ht.
  destruct (error_object_plain this m r s Hp Hr) as (block & s1 & E & G & C).
  unfold _error. erewrite bind_ret by exact E.
  match goal with
  | |- context [error_dispatch this ?f ?e s1] =>
      destruct (error_dispatch_run this f e s1) as (s2 & G2 & D)
  end.
  unfold type_of in *. rewrite (grows_slot _ _ _ _ G), Ht in D.
  exists s2. by destruct D.
Qed.

(** X17: [copy()] does not carry the type over: the constructor of [Field]
    sets none, so the copy of a field whose type is set is a field
    without a type, while the source keeps its own.  On the copy,
    therefore, no call of [_error] returns, and none throws the error it
    has built: once the error is built the process is ended, with
    status 2, where on the source the error would be thrown or logged;
    and when the error cannot be built, what was raised then reaches the
    caller.  The error can be built, and the process is ended, whenever
    the configuration names no record, the message is a string and the
    received value is not an object.  (This is [Field] itself, or a
    class that inherits its constructor.) *)
Theorem copy_has_no_type (s : state) (this : loc) (F : obj) (cls n : string)
    (c : loc) (o : obj) :
  heap s !! this = Some F -> o_kind F = KField cls ->
  name_of (heap s) this = VStr n -> n <> "" ->
  slot (heap s) this "_config" = VRef c ->
  heap s !! c = Some o -> o_kind o = KObject -> o_frozen o = false ->
  exists twin s',
    copy this s = Ret twin s'
    /\ type_of (heap s') twin = VUndefined
    /\ type_of (heap s') this = type_of (heap s) this
    /\ (forall m r ft,
          match error_object twin m r s' with
          | Ret e _ =>
              exists s2,
                _error twin m r ft s' = Exit 2 s2
                /\ console s2
                   = console s' ++ [LogStack e; LogError exit_notice]
          | Throw e s1 => _error twin m r ft s' = Throw e s1
          | Exit _ _ => False
          end)
    /\ (truthy (own_get "__record__" (o_props o)) = false ->
        forall m r ft, is_object r = false ->
          exit_code (_error twin (VStr m) r ft s') = Some 2%Z).
Proof.
  intros Hthis HF Hname Hn Hconf Hc Hk Hf.
  assert (Hne : this <> c) by (intros ->; congruence).
  assert (Hlt : this < length (heap s)) by (by eapply lookup_lt_Some).
  assert (Hltc : c < length (heap s)) by (by eapply lookup_lt_Some).
  assert (Hname' : own_get "_name" (o_props F) = VStr n).
  { revert Hname. unfold name_of, slot. by rewrite Hthis. }
  assert (Hconf' : own_get "_config" (o_props F) = VRef c).
  { revert Hconf. unfold slot. by rewrite Hthis. }
  erewrite copy_run by eauto.
  unfold copy_object. rewrite Hconf, Hname.
  set (T := mkObj (KField cls) _ _ _).
  set (h' := <[c := normalize_strict o]> (heap s)).
  assert (Hlen : length h' = length (heap s)) by apply length_insert.
  assert (HT : (h' ++ [T]) !! length (heap s) = Some T).
  { rewrite lookup_app_r by lia. by rewrite Hlen, Nat.sub_diag. }
  assert (Hthis' : (h' ++ [T]) !! this = Some F).
  { rewrite lookup_app_l by lia. unfold h'. by rewrite list_lookup_insert_ne. }
  assert (Hc' : (h' ++ [T]) !! c = Some (normalize_strict o)).
  { rewrite lookup_app_l by lia. unfold h'. by rewrite list_lookup_insert_eq. }
  do 2 eexists. split; [reflexivity|]. cbn [heap].
  assert (Htype : type_of (h' ++ [T]) (length (heap s)) = VUndefined).
  { unfold type_of, slot. by rewrite HT. }
  split; [exact Htype|].
  split; [unfold type_of, slot; by rewrite Hthis', Hthis|].
  split; [intros m r ft; by apply error_on_untyped|].
  intros Hrec m r ft Hr.
  destruct (error_exits_on_untyped (length (heap s)) m r ft
              (mkState (h' ++ [T]) (console s))) as [s2 E]; [| done | done |].
  - unfold plain_field, config_prop, name_of. unfold slot at 1 2 3.
    cbn [heap]. rewrite HT. cbn [T o_props own_get String.eqb Ascii.eqb Bool.eqb].
    cbn [truthy is_object negb andb]. rewrite andb_true_r.
    unfold get_member. rewrite Hc'.
    assert (Hko : o_kind (normalize_strict o) = KObject).
    { unfold normalize_strict. by destruct (strict_eq _ _). }
    rewrite Hko.
    assert (Hr' : own_get "__record__" (o_props (normalize_strict o))
                  = own_get "__record__" (o_props o)).
    { unfold normalize_strict. destruct (strict_eq _ _); [done|].
      cbn [with_props o_props]. by apply own_get_own_put_ne. }
    by rewrite Hr', Hrec.
  - by rewrite E.
Qed.

(** X18: a copy has the same answer to [_changed] as its source, whatever the
    source holds: both compare the same original value with the same
    current value under the same configuration. *)
Theorem copy_agrees_on_changed (s : state) (this : loc) (F : obj)
    (cls n : string) (c : loc) (o : obj) :
  heap s !! this = Some F -> o_kind F = KField cls ->
  name_of (heap s) this = VStr n -> n <> "" ->
  slot (heap s) this "_config" = VRef c ->
  heap s !! c = Some o -> o_kind o = KObject -> o_frozen o = false ->
  exists twin s',
    copy this s = Ret twin s'
    /\ _changed twin s' = _changed this s'
    /\ _saveValue twin s' = _saveValue this s'.
Proof.
  intros Hthis HF Hname Hn Hconf Hc Hk Hf.
  assert (Hne : this <> c) by (intros ->; congruence).
  assert (Hlt : this < length (heap s)) by (by eapply lookup_lt_Some).
  assert (Hltc : c < length (heap s)) by (by eapply lookup_lt_Some).
  assert (Hname' : own_get "_name" (o_props F) = VStr n).
  { revert Hname. unfold name_of, slot. by rewrite Hthis. }
  assert (Hconf' : own_get "_config" (o_props F) = VRef c).
  { revert Hconf. unfold slot. by rewrite Hthis. }
  erewrite copy_run by eauto.
  unfold copy_object. rewrite Hconf, Hname.
  set (T := mkObj (KField cls) _ _ _).
  set (h' := <[c := normalize_strict o]> (heap s)).
  assert (Hlen : length h' = length (heap s)) by apply length_insert.
  assert (HT : (h' ++ [T]) !! length (heap s) = Some T).
  { rewrite lookup_app_r by lia. by rewrite Hlen, Nat.sub_diag. }
  assert (Hthis' : (h' ++ [T]) !! this = Some F).
  { rewrite lookup_app_l by lia. unfold h'. by rewrite list_lookup_insert_ne. }
  do 2 eexists. split; [reflexivity|].
  set (s' := mkState (h' ++ [T]) (console s)).
  assert (Hv : slot (heap s') (length (heap s)) "_value"
               = value_of (heap s) this).
  { unfold slot. cbn [heap s']. by rewrite HT. }
  assert (Ho : original_of (heap s') (length (heap s))
               = original_of (heap s') this).
  { unfold original_of at 1 2, slot. cbn [heap s']. rewrite HT, Hthis'. simpl.
    unfold original_of, slot. by rewrite Hthis. }
  assert (Hcf : slot (heap s') (length (heap s)) "_config"
                = slot (heap s') this "_config").
  { unfold slot. cbn [heap s']. by rewrite HT, Hthis', Hconf'. }
  (* the copy stores the value as the source reads it *)
  assert (Hsave : _saveValue (length (heap s)) s' = _saveValue this s').
  { unfold _saveValue.
    destruct (config_member_run this "strict" s') as (s1 & E & G & C).
    assert (E' : config_member (length (heap s)) "strict" s'
                 = config_member this "strict" s').
    { unfold config_member, config_get, bind, read. by rewrite Hcf. }
    erewrite bind_ret by (rewrite E'; exact E).
    erewrite (bind_ret (config_member this "strict")) by exact E.
    erewrite !bind_ret by reflexivity.
    unfold value_of, original_of in *.
    rewrite !(grows_slot _ _ _ _ G), Hv, Ho, normalize_value_idem.
    unfold slot. cbn [heap s']. by rewrite Hthis', Hthis. }
  split; [|exact Hsave].
  assert (Hval : value_of (heap s') this = value_of (heap s) this).
  { unfold value_of, slot. cbn [heap s']. by rewrite Hthis', Hthis. }
  assert (Hval' : value_of (heap s') (length (heap s)) = value_of (heap s') this).
  { unfold value_of at 1. rewrite Hv, Hval. apply normalize_value_idem. }
  unfold _changed. erewrite !bind_ret by reflexivity.
  rewrite Ho, Hval'.
  destruct (is_array (heap s') (original_of (heap s') this)
            && is_array (heap s') (value_of (heap s') this)).
  - apply bind_agree; [reflexivity|]. intros a s1 Ha.
    apply lift_inv in Ha. subst s1.
    apply bind_agree; [exact Hsave | done].
  - apply bind_agree; [exact Hsave|]. intros save s2 Hs2.
    destruct (negb (strict_eq (original_of (heap s') this) save)); [|done].
    apply bind_agree; [reflexivity|]. intros a s3 Ha.
    apply lift_inv in Ha. subst s3.
    apply bind_agree; [|done].
    destruct (adds_only_saveValue this s') as (X & _ & _).
    rewrite Hs2 in X. simpl in X.
    unfold value_get, read, value_of.
    rewrite (extends_slot _ _ _ _ _ X HT), (extends_slot _ _ _ _ _ X Hthis').
    fold (value_of (heap s') this) (value_of (heap s') (length (heap s))).
    by rewrite Hval'.
Qed.

End CopyMore.

(** ** [_deepFreezeValue] on values without nesting *)

Lemma bind_throw {A B} (c : js A) (k : A -> js B) s e s' :
  c s = Throw e s' -> bind c k s = Throw e s'.
Proof. intros H. unfold bind. by rewrite H. Qed.

Section DeepFreezeMore.
Context {RT : Runtime}.

Lemma cache_has_nil key : cache_has [] key = false.
Proof.
  unfold cache_has. rewrite bool_decide_eq_false_2 by apply not_elem_of_nil.
  apply andb_false_r.
Qed.

Lemma handleValue_S n this v seen :
  handleValue (S n) this v seen
  = (key <- lift (fun h => to_string h v) ;;
     if cache_has seen key then ret (v, seen)
     else
       let seen := key :: seen in
       if is_undefined v || strict_eq v VNull || is_NaN v then ret (v, seen)
       else
         h <- get_heap ;;
         if is_frozen h v then ret (v, seen)
         else
           record <- lift (fun h => _isRecord h v) ;;
           if record : bool then ret (v, seen)
           else if instanceof_Field h v then ret (v, seen)
           else if is_array h v then
             elems <- lift (fun h => spread h v) ;;
             r <- map_handle (handleValue n this) elems seen ;;
             a <- alloc (mkObj KArray (fst r) [] false) ;;
             a <- Object_freeze a ;;
             ret (a, snd r)
           else if jstype_eqb (typeof v) TObject then
             entries <- read (fun h => match v with
                                       | VRef l => default [] (o_props <$> h !! l)
                                       | _ => []
                                       end) ;;
             empty <- alloc (mkObj KObject [] [] false) ;;
             r <- reduce_handle (handleValue n this) entries empty seen ;;
             a <- Object_freeze (fst r) ;;
             ret (a, snd r)
           else ret (v, seen)).
Proof. reflexivity. Qed.

Lemma isRecord_of_field h v :
  instanceof_Field h v = true -> exists b, _isRecord h v = Ok b.
Proof.
  unfold instanceof_Field, kind_of, _isRecord, get_constructor_name.
  destruct v as [| | | | |l]; try done. simpl.
  destruct (h !! l) as [o|]; [|done]. simpl.
  destruct (o_kind o); try done. intros _. by eexists.
Qed.

Lemma isRecord_of_array h a o :
  h !! a = Some o -> o_kind o = KArray -> _isRecord h (VRef a) = Ok false.
Proof.
  intros Ha Hk. unfold _isRecord, get_constructor_name, constructor_name.
  cbn [typeof jstype_eqb strict_eq negb andb]. rewrite Ha.
  cbn [fmap option_fmap option_map]. rewrite Hk. reflexivity.
Qed.

(** [handleValue] on a value that is not an object: the value itself,
    and the store as it was. *)
Lemma handle_primitive n this e seen s :
  is_object e = false ->
  exists seen', handleValue (S n) this e seen s = Ret (e, seen') s.
Proof.
  intros He. rewrite handleValue_S.
  destruct (to_string_primitive_ok (heap s) e He) as [key Hkey].
  erewrite bind_ret by (apply lift_run; exact Hkey).
  destruct (cache_has seen key); [by eexists|].
  destruct (is_undefined e || strict_eq e VNull || is_NaN e); [by eexists|].
  erewrite bind_ret by reflexivity.
  assert (Hf : is_frozen (heap s) e = true) by (by destruct e).
  rewrite Hf. by eexists.
Qed.

Lemma map_handle_primitives n this elems seen s :
  forallb (fun e => negb (is_object e)) elems = true ->
  exists seen',
    map_handle (handleValue (S n) this) elems seen s = Ret (elems, seen') s.
Proof.
  revert seen. induction elems as [|e elems IH]; intros seen H.
  - by eexists.
  - cbn [forallb] in H. apply andb_true_iff in H as [He H].
    apply negb_true_iff in He. cbn [map_handle].
    destruct (handle_primitive n this e seen s He) as [seen1 E1].
    erewrite bind_ret by exact E1. cbn [fst snd].
    destruct (IH seen1 H) as [seen2 E2].
    erewrite bind_ret by exact E2. by eexists.
Qed.

Lemma to_string_fuel_array n h a o :
  h !! a = Some o -> o_kind o = KArray ->
  to_string_fuel (S n) h (VRef a)
  = (parts <~ res_map (fun e => match e with
                                | VUndefined | VNull => Ok ""
                                | _ => to_string_fuel n h e
                                end) (o_elems o) ;;
     Ok (join_with "," parts)).
Proof. intros Ha Hk. cbn [to_string_fuel]. by rewrite Ha, Hk. Qed.

Lemma to_string_array_of_primitives h a o :
  h !! a = Some o -> o_kind o = KArray ->
  forallb (fun e => negb (is_object e)) (o_elems o) = true ->
  exists key, to_string h (VRef a) = Ok key.
Proof.
  intros Ha Hk He. unfold to_string, depth_bound.
  rewrite (to_string_fuel_array _ _ _ _ Ha Hk).
  assert (H : exists parts,
    res_map (fun e => match e with
                      | VUndefined | VNull => Ok ""
                      | _ => to_string_fuel (S (length h)) h e
                      end) (o_elems o) = Ok parts).
  { revert He. generalize (o_elems o). intros l.
    induction l as [|e l IH]; intros H; [by eexists|].
    cbn [forallb] in H. apply andb_true_iff in H as [He H].
    destruct (IH H) as [parts Hp]. cbn [res_map]. rewrite Hp.
    destruct e as [| |[]| | |]; try done; by eexists. }
  destruct H as [parts ->]. by eexists.
Qed.

(** X19: [_deepFreezeValue] answers with the very value it is given, and
    leaves the store as it is, for every value that is not an object,
    and for an object that is frozen already, or a [Record], or a
    [Field], provided the object has a text (the cache of the function
    is keyed by the texts of the values). *)
Theorem deep_freeze_passes_through (this : loc) (v : value) (s : state) :
  (is_object v = false -> _deepFreezeValue this v s = Ret v s)
  /\ (forall key,
        to_string (heap s) v = Ok key ->
        is_frozen (heap s) v = true \/ _isRecord (heap s) v = Ok true
        \/ instanceof_Field (heap s) v = true ->
        _deepFreezeValue this v s = Ret v s).
Proof.
  split.
  - intros Hv. unfold _deepFreezeValue. erewrite bind_ret by reflexivity.
    unfold depth_bound.
    destruct (handle_primitive (S (length (heap s))) this v [] s Hv)
      as [seen E].
    by erewrite bind_ret by exact E.
  - intros key Hkey H. unfold _deepFreezeValue.
    erewrite bind_ret by reflexivity. unfold depth_bound.
    assert (E : handleValue (S (S (length (heap s)))) this v [] s
                = Ret (v, [key]) s).
    { rewrite handleValue_S.
      erewrite bind_ret by (apply lift_run; exact Hkey).
      rewrite cache_has_nil. cbn zeta.
      destruct (is_undefined v || strict_eq v VNull || is_NaN v); [done|].
      erewrite bind_ret by reflexivity.
      destruct (is_frozen (heap s) v) eqn:Hfz; [done|].
      destruct H as [H | [H | H]]; [done | |].
      - by erewrite bind_ret by (apply lift_run; exact H).
      - destruct (isRecord_of_field _ _ H) as [b Hb].
        erewrite bind_ret by (apply lift_run; exact Hb).
        rewrite H. by destruct b. }
    by erewrite bind_ret by exact E.
Qed.

(** X20: for an array that is not frozen and holds no object,
    [_deepFreezeValue] answers with a new array of the same elements,
    frozen, and leaves the array it was given as it was. *)
Theorem deep_freeze_array_of_primitives (this a : loc) (o : obj) (s : state) :
  heap s !! a = Some o -> o_kind o = KArray -> o_frozen o = false ->
  forallb (fun e => negb (is_object e)) (o_elems o) = true ->
  _deepFreezeValue this (VRef a) s
  = Ret (VRef (length (heap s)))
        (mkState (heap s ++ [mkObj KArray (o_elems o) [] true]) (console s)).
Proof.
  intros Ha Hk Hf He. unfold _deepFreezeValue.
  erewrite bind_ret by reflexivity. unfold depth_bound.
  destruct (to_string_array_of_primitives _ _ _ Ha Hk He) as [key Hkey].
  destruct (map_handle_primitives (length (heap s)) this (o_elems o) [key] s He)
    as [seen' E].
  assert (Hrun : handleValue (S (S (length (heap s)))) this (VRef a) [] s
                 = Ret (VRef (length (heap s)), seen')
                       (mkState (heap s ++ [mkObj KArray (o_elems o) [] true])
                                (console s))).
  { rewrite handleValue_S.
    erewrite bind_ret by (apply lift_run; exact Hkey).
    rewrite cache_has_nil. cbn [is_undefined strict_eq is_NaN orb]. cbn zeta.
    erewrite bind_ret by reflexivity.
    unfold is_frozen. rewrite Ha, Hf.
    erewrite bind_ret by (apply lift_run; by eapply isRecord_of_array).
    unfold instanceof_Field, is_array, kind_of.
    rewrite Ha. cbn [fmap option_fmap option_map]. rewrite Hk.
    erewrite bind_ret;
      [| apply lift_run; unfold spread; by rewrite Ha, Hk].
    erewrite bind_ret by exact E. cbn [fst snd].
    erewrite bind_ret by reflexivity.
    unfold Object_freeze. erewrite !bind_ret by reflexivity.
    unfold ret. cbn [heap console]. f_equal. f_equal.
    rewrite alter_app_r_alt by done. by rewrite Nat.sub_diag. }
  by erewrite bind_ret by exact Hrun.
Qed.

(** X21: the reducer of [_deepFreezeValue] hands on the value it assigned, not
    the object it builds.  So for a plain object that is not frozen and
    whose first property holds a value that is not an object, the answer
    is that value when the property is the only one; with a second such
    property (of any name but [__proto__]) the assignment is made on the
    first value and raises a [TypeError].  The object given is left as it
    was.  (The object is one the function gets to take apart: it has a
    text, that is no property [toString] of its own, for the look-up in
    the cache, and [_isRecord] answers, with [false].) *)
Theorem deep_freeze_of_plain_object (this l : loc) (o : obj) (k : string)
    (p : value) (rest : list (string * value)) (s : state) :
  heap s !! l = Some o -> o_kind o = KObject -> o_frozen o = false ->
  o_props o = (k, p) :: rest -> is_object p = false ->
  own_has "toString" (o_props o) = false ->
  _isRecord (heap s) (VRef l) = Ok false ->
  match rest with
  | [] =>
      exists s', _deepFreezeValue this (VRef l) s = Ret p s'
                 /\ heap s' !! l = Some o
  | (k2, p2) :: _ =>
      is_object p2 = false -> k2 <> "__proto__" ->
      exists e s', _deepFreezeValue this (VRef l) s = Throw e s'
                   /\ ename e = "TypeError" /\ heap s' !! l = Some o
  end.
Proof.
  intros Hl Hk Hf Hp Hprim Htext Hrec.
  assert (Hlt : l < length (heap s)) by (by eapply lookup_lt_Some).
  assert (Hkey : to_string (heap s) (VRef l) = Ok "[object Object]").
  { unfold to_string, depth_bound. cbn [to_string_fuel].
    by rewrite Hl, Hk, Htext. }
  set (s1 := mkState (heap s ++ [mkObj KObject [] [] false]) (console s)).
  assert (Hl1 : heap s1 !! l = Some o) by (by apply lookup_app_l_Some).
  assert (He1 : heap s1 !! length (heap s) = Some (mkObj KObject [] [] false)).
  { unfold s1. cbn [heap]. by rewrite lookup_app_r, Nat.sub_diag by done. }
  destruct (handle_primitive (length (heap s)) this p ["[object Object]"] s1 Hprim)
    as [seen1 E1].
  set (s2 := mkState (alter (with_props (own_put k p)) (length (heap s)) (heap s1))
                     (console s1)).
  assert (Hl2 : heap s2 !! l = Some o).
  { unfold s2. cbn [heap]. by rewrite list_lookup_alter_ne by lia. }
  (* up to the reducer *)
  assert (Hrun :
    handleValue (S (S (length (heap s)))) this (VRef l) [] s
    = (r <- reduce_handle (handleValue (S (length (heap s))) this)
              ((k, p) :: rest) (VRef (length (heap s))) ["[object Object]"] ;;
       a <- Object_freeze (fst r) ;; ret (a, snd r)) s1).
  { rewrite handleValue_S.
    erewrite bind_ret by (apply lift_run; exact Hkey).
    rewrite cache_has_nil. cbn [is_undefined strict_eq is_NaN orb]. cbn zeta.
    erewrite bind_ret by reflexivity.
    unfold is_frozen. rewrite Hl, Hf.
    erewrite bind_ret by (apply lift_run; exact Hrec).
    unfold instanceof_Field, is_array, kind_of.
    rewrite Hl. cbn [fmap option_fmap option_map]. rewrite Hk.
    cbn [typeof jstype_eqb].
    erewrite bind_ret by reflexivity. rewrite Hl.
    cbn [fmap option_fmap option_map default]. rewrite Hp.
    erewrite bind_ret by reflexivity. reflexivity. }
  assert (Hstart : forall X : outcome (value * list string),
    handleValue (S (S (length (heap s)))) this (VRef l) [] s = X ->
    _deepFreezeValue this (VRef l) s = (r <- (fun _ => X) ;; ret (fst r)) s).
  { intros X <-. reflexivity. }
  assert (Hput : put_member (VRef (length (heap s))) k p s1 = Ret tt s2).
  { by eapply put_member_object; [exact He1 | left |]. }
  destruct rest as [|[k2 p2] rest].
  - assert (Hred : reduce_handle (handleValue (S (length (heap s))) this)
                     [(k, p)] (VRef (length (heap s))) ["[object Object]"] s1
                   = Ret (p, seen1) s2).
    { cbn [reduce_handle]. erewrite bind_ret by exact E1. cbn [fst snd].
      by erewrite bind_ret by exact Hput. }
    assert (Hfr : Object_freeze p s2 = Ret p s2) by (by destruct p).
    exists s2. split; [|exact Hl2].
    erewrite Hstart; [|rewrite Hrun; erewrite bind_ret by exact Hred;
                       cbn [fst snd]; erewrite bind_ret by exact Hfr;
                       reflexivity].
    reflexivity.
  - intros Hp2 Hk2.
    destruct (handle_primitive (length (heap s)) this p2 seen1 s2 Hp2)
      as [seen2 E2].
    assert (Hthrow : exists e,
      put_member p k2 p2 s2 = Throw e s2 /\ ename e = "TypeError").
    { destruct p as [| |b|x|t|c]; try done;
        eexists; (split; [reflexivity | done]). }
    destruct Hthrow as (e & E3 & He).
    assert (Hred : reduce_handle (handleValue (S (length (heap s))) this)
                     ((k, p) :: (k2, p2) :: rest) (VRef (length (heap s)))
                     ["[object Object]"] s1
                   = Throw e s2).
    { cbn [reduce_handle]. erewrite bind_ret by exact E1. cbn [fst snd].
      erewrite bind_ret by exact Hput.
      erewrite bind_ret by exact E2. cbn [fst snd].
      unfold bind. by rewrite E3. }
    exists e, s2. split; [|done].
    erewrite Hstart; [|rewrite Hrun; apply bind_throw; exact Hred].
    reflexivity.
Qed.

End DeepFreezeMore.

(** ** A new original value *)

Section Rebaseline.
Context {RT : Runtime}.

(** What the getter of [value] answers is never [NaN]. *)
Lemma normalize_value_not_nan v : is_NaN (normalize_value v) = false.
Proof.
  destruct (normalize_value_cases v) as [H | [H _]]; rewrite H; [|done].
  destruct v as [| | |x| |]; try done. simpl.
  destruct (PrimFloat.is_nan x) eqn:N; [|done].
  revert H. unfold normalize_value. simpl. rewrite N, orb_true_r, orb_false_r.
  destruct (PrimFloat.eqb x 0) eqn:Z; [|done].
  apply float_zero_not_nan in Z. congruence.
Qed.

(** X22: taking the current value as the new original value, through the
    setter of [_originalValue], clears the change: on a field that is not
    frozen and whose value is not an array, [_changed] answers [false]
    afterwards, whatever it answered before; the value itself is
    untouched. *)
Theorem rebaseline_clears_changed (this : loc) (o : obj) (s : state) :
  heap s !! this = Some o -> o_frozen o = false ->
  is_array (heap s) (value_of (heap s) this) = false ->
  exists s1 s2,
    (v <- value_get this ;; _originalValue_set this v) s = Ret tt s1
    /\ original_of (heap s1) this = value_of (heap s) this
    /\ value_of (heap s1) this = value_of (heap s) this
    /\ _changed this s1 = Ret false s2.
Proof.
  intros Hl Hf Ha.
  set (v := value_of (heap s) this) in *.
  set (s1 := mkState (alter (with_props (own_put "_originalValue_" v)) this (heap s))
                     (console s)).
  assert (E1 : (v <- value_get this ;; _originalValue_set this v) s = Ret tt s1).
  { erewrite bind_ret by reflexivity. by eapply put_own_run. }
  assert (Ho : original_of (heap s1) this = v).
  { unfold original_of, s1. cbn [heap].
    rewrite (slot_after_put _ _ _ _ _ _ Hl). by rewrite String.eqb_refl. }
  assert (Hv : value_of (heap s1) this = v).
  { unfold value_of, s1. cbn [heap].
    by rewrite (slot_after_put _ _ _ _ _ _ Hl). }
  assert (Ha1 : is_array (heap s1) v = false).
  { unfold s1. cbn [heap]. by rewrite is_array_alter. }
  destruct (save_value_kept s1 this) as (s2 & Es & G & C).
  { right. right. right. by rewrite Hv, Ho. }
  exists s1, s2. split; [exact E1|]. split; [exact Ho|]. split; [exact Hv|].
  unfold _changed. erewrite !bind_ret by reflexivity.
  rewrite Ho, Ha1. cbn [andb].
  erewrite bind_ret by exact Es. rewrite Hv.
  rewrite strict_eq_refl by apply normalize_value_not_nan. reflexivity.
Qed.

End Rebaseline.

(** ** The properties above on concrete inputs *)

Lemma error_outcomes_witness :
  (exists s', _error 0 (VStr "invalid") VUndefined VUndefined fresh_field_state
              = Exit 2 s')
  /\ (exists e s', _error 0 (VStr "invalid") VUndefined VUndefined typed_field_state
                   = Throw e s' /\ ename e = "FieldError")
  /\ (exists e s', _error 1 (VStr "invalid") VUndefined VUndefined quiet_field_state
                   = Ret VUndefined s'
                   /\ console s' = [LogStack e] /\ ename e = "FieldError")
  /\ (exists e s', _error 1 (VStr "invalid") VUndefined (VBool true) quiet_field_state
                   = Throw e s')
  /\ (exists e s', _error 0 (VStr "invalid") (VRef 0) VUndefined fresh_field_state
                   = Throw e s' /\ ename e = "TypeError").
Proof.
  split; [|split; [|split; [|split]]].
  - pose proof (proj1 (proj2 (error_outcomes 0 (VStr "invalid") VUndefined
                                VUndefined fresh_field_state))) as H.
    vm_compute in H. destruct H as [s' [H _]].
    exists s'. exact H.
  - pose proof (proj1 (proj2 (error_outcomes 0 (VStr "invalid") VUndefined
                                VUndefined typed_field_state))) as H.
    vm_compute in H. destruct H as [s' [H _]].
    eexists. exists s'. split; [exact H | reflexivity].
  - pose proof (proj1 (proj2 (error_outcomes 1 (VStr "invalid") VUndefined
                                VUndefined quiet_field_state))) as H.
    vm_compute in H. destruct H as [s' [H C]].
    eexists. exists s'. split; [exact H|]. split; [exact C | reflexivity].
  - pose proof (proj1 (proj2 (error_outcomes 1 (VStr "invalid") VUndefined
                                (VBool true) quiet_field_state))) as H.
    vm_compute in H. destruct H as [s' [H _]].
    eexists. exists s'. exact H.
  - pose proof (proj1 (proj2 (error_outcomes 0 (VStr "invalid") (VRef 0)
                                VUndefined fresh_field_state))) as H.
    vm_compute in H. destruct H as [H _].
    do 2 eexists. split; [exact H | reflexivity].
Defined.

Lemma value_assignment_witness :
  exists s',
    value_set 0 (VStr "") alice_state = Ret tt s'
    /\ value_get 0 s' = Ret VNull s'
    /\ original_of (heap s') 0 = VStr "Alice".
Proof.
  pose proof (value_assignment 0
                (field_object "Field" (VStr "Name") (VRef 1) (VStr "Alice"))
                (VStr "") alice_state eq_refl) as H.
  cbn [o_frozen field_object] in H.
  destruct H as (s' & H1 & H2 & H3 & _).
  exists s'. split; [exact H1|]. split; [exact H2|]. rewrite H3. reflexivity.
Defined.

Lemma name_assignment_witness :
  (exists s', name_set 0 (VStr "Title") alice_state = Ret tt s'
              /\ name_get 0 s' = Ret (VStr "Title") s')
  /\ name_of (heap (final (name_set 0 (VNum 1) typed_field_state))) 0 = VStr "x".
Proof.
  split.
  - destruct (name_assignment 0
                (field_object "Field" (VStr "Name") (VRef 1) (VStr "Alice"))
                (VStr "Title") alice_state eq_refl) as [H _].
    destruct (H "Title" eq_refl) as (s' & H1 & H2 & _); [done | reflexivity |].
    exists s'. split; [exact H1 | exact H2].
  - destruct (name_assignment 0
                (mkObj (KField "Field") []
                   [("_name", VStr "x"); ("_config", VRef 1);
                    ("_originalValue_", VUndefined); ("_type", VStr "text")]
                   false)
                (VNum 1) typed_field_state eq_refl) as [_ H].
    destruct H as [_ H]; [by left|]. rewrite H. reflexivity.
Defined.

Lemma config_first_assignment_witness :
  exists s',
    config_set 0 VNull named_field_state = Ret tt s'
    /\ slot (heap s') 0 "_config" = VNull
    /\ config_set 0 (VRef 1) s'
       = (_error 0 (VStr "config can not be changed!") VUndefined VUndefined
          ;;; ret tt) s'.
Proof.
  pose proof (config_first_assignment 0
                (mkObj (KField "Field") [] [("_name", VStr "x")] false)
                VNull named_field_state eq_refl eq_refl eq_refl) as H.
  cbn in H. destruct H as (s' & H1 & H2 & _ & H4).
  exists s'. split; [exact H1|]. split; [exact H2|].
  apply (proj2 (H4 eq_refl)).
Defined.

Lemma type_first_assignment_witness :
  exists s',
    type_set 0 (VStr "text") fresh_field_state = Ret tt s'
    /\ type_get 0 s' = Ret (VStr "text") s'
    /\ exit_code (_error 0 (VStr "invalid") VUndefined VUndefined s') = None.
Proof.
  destruct (type_first_assignment 0
              (field_object "Field" (VStr "x") (VRef 1) VUndefined)
              (VStr "text") fresh_field_state eq_refl eq_refl eq_refl)
    as (s' & H1 & H2 & _ & _ & H5).
  exists s'. split; [exact H1|]. split; [exact H2|]. by apply H5.
Defined.

Lemma construction_postcondition_witness :
  exists this s',
    Field_new "Field" (VStr "Name") (VStr "") (VRef 0) loose_config_state
    = Ret this s'
    /\ original_of (heap s') this = VStr ""
    /\ value_of (heap s') this = VNull
    /\ type_of (heap s') this = VUndefined
    /\ config_prop (heap s') this "strict" = VBool false.
Proof.
  destruct (construction_postcondition "Field" "Name" (VStr "") (VRef 0)
              loose_config_state)
    as (this & s' & c & H1 & _ & _ & _ & H5 & H6 & H7 & _ & _ & H10 & _);
    [done | |].
  - right. exists 0, (mkObj KObject [] [("strict", VNum 1)] false).
    split; [reflexivity|]. split; [reflexivity|]. split; [done | by left].
  - exists this, s'. split; [exact H1|]. split; [exact H5|].
    split; [exact H6|]. split; [exact H7 | exact H10].
Defined.

Lemma construction_with_primitive_config_witness :
  ename <$> thrown (run (Field_new "Field" (VStr "Name") VUndefined (VNum 5)))
  = Some "TypeError".
Proof.
  destruct (construction_with_primitive_config "Field" "Name" VUndefined
              (VNum 5) empty_state eq_refl) as (e & H & He); [done|].
  unfold run. rewrite H. simpl. by rewrite He.
Defined.

Lemma construction_with_empty_name_witness :
  exit_code (run (Field_new "Field" (VStr "") (VStr "Alice") VUndefined))
  = Some 2%Z.
Proof.
  destruct (construction_with_empty_name "Field" (VStr "Alice") VUndefined
              empty_state) as (s' & e & H & _); [by left|].
  unfold run. by rewrite H.
Defined.

Lemma changed_on_strings_witness :
  exists s', _changed 0 alice_bob_state = Ret true s'.
Proof.
  exact (changed_on_strings 0 alice_bob_state "Alice" "Bob" eq_refl eq_refl).
Defined.

Lemma changed_on_reordered_strings_witness :
  exists s', _changed 2 tags_state = Ret false s'.
Proof.
  apply (changed_on_reordered_strings tags_state 2 0 1
           (mkObj KArray [VStr "a"; VStr "b"] [] false)
           (mkObj KArray [VStr "b"; VStr "a"] [] false)
           ["a"; "b"] ["b"; "a"]); try reflexivity.
  apply perm_swap.
Defined.

Lemma changed_after_construction_witness :
  exists s',
    (f <- Field_new "Field" (VStr "Name") (VStr "Alice") VUndefined ;;
     _changed f) empty_state = Ret false s'.
Proof.
  apply changed_after_construction; [done | by left | done | done | reflexivity].
Defined.

Lemma changed_when_untouched_array_witness :
  _changed 1 tags_untouched_state = Ret false tags_untouched_state.
Proof.
  eapply (changed_when_untouched_array tags_untouched_state 1); reflexivity.
Defined.

Lemma copy_has_no_type_witness :
  exists twin s',
    copy 0 typed_field_state = Ret twin s'
    /\ type_of (heap s') twin = VUndefined
    /\ type_of (heap s') 0 = VStr "text"
    /\ exit_code (_error twin (VStr "invalid") VUndefined VUndefined s')
       = Some 2%Z.
Proof.
  destruct (copy_has_no_type typed_field_state 0
              (mkObj (KField "Field") []
                 [("_name", VStr "x"); ("_config", VRef 1);
                  ("_originalValue_", VUndefined); ("_type", VStr "text")]
                 false)
              "Field" "x" 1
              (mkObj KObject [] [("strict", VBool false)] false)
              eq_refl eq_refl eq_refl)
    as (twin & s' & H1 & H2 & H3 & _ & H4);
    [done | reflexivity | reflexivity | reflexivity | reflexivity |].
  exists twin, s'. split; [exact H1|]. split; [exact H2|].
  split; [rewrite H3; reflexivity|]. by apply H4.
Defined.

Lemma copy_agrees_on_changed_witness :
  exists twin s',
    copy 0 alice_42_state = Ret twin s'
    /\ _changed twin s' = _changed 0 s'
    /\ _saveValue twin s' = _saveValue 0 s'.
Proof.
  apply (copy_agrees_on_changed alice_42_state 0
           (mkObj (KField "Field") []
              [("_name", VStr "Name"); ("_config", VRef 1);
               ("_value", VNum 42); ("_originalValue_", VStr "Alice")] false)
           "Field" "Name" 1
           (mkObj KObject [] [("strict", VBool false)] false));
    (reflexivity || done).
Defined.


Lemma warn_only_warns_witness :
  exists s', _warn 0 (VStr "careful") (VNum 1) alice_state = Ret VUndefined s'.
Proof.
  destruct (warn_only_warns 0 (VStr "careful") (VNum 1) alice_state)
    as (_ & _ & H).
  by apply H.
Defined.

Lemma error_thrown_is_named_witness :
  exists block s',
    _error 0 (VStr "invalid") VUndefined VUndefined typed_field_state
    = Throw (mkError "FieldError" ("invalid" +:+ block)) s'.
Proof.
  destruct (error_thrown_is_named 0
              (mkObj (KField "Field") []
                 [("_name", VStr "x"); ("_config", VRef 1);
                  ("_originalValue_", VUndefined); ("_type", VStr "text")]
                 false)
              "Field" "invalid" VUndefined VUndefined typed_field_state
              eq_refl eq_refl eq_refl eq_refl eq_refl eq_refl)
    as (block & s' & H & _).
  exists block, s'. exact H.
Defined.

Lemma deep_freeze_passes_through_witness :
  _deepFreezeValue 0 (VStr "a") alice_state = Ret (VStr "a") alice_state
  /\ _deepFreezeValue 0 (VRef 0) alice_state = Ret (VRef 0) alice_state.
Proof.
  destruct (deep_freeze_passes_through 0 (VStr "a") alice_state) as [H1 _].
  destruct (deep_freeze_passes_through 0 (VRef 0) alice_state) as [_ H2].
  split; [by apply H1|].
  apply (H2 "Name: Alice"); [reflexivity | right; right; reflexivity].
Defined.

Lemma deep_freeze_array_of_primitives_witness :
  _deepFreezeValue 3 (VRef 2) freeze_inputs_state
  = Ret (VRef 5)
        (mkState (heap freeze_inputs_state
                  ++ [mkObj KArray [VNum 1; VStr "a"; VNull] [] true]) []).
Proof.
  apply (deep_freeze_array_of_primitives 3 2
           (mkObj KArray [VNum 1; VStr "a"; VNull] [] false)
           freeze_inputs_state); reflexivity.
Defined.

Lemma deep_freeze_of_plain_object_witness :
  (exists s', _deepFreezeValue 3 (VRef 0) freeze_inputs_state = Ret (VNum 1) s')
  /\ (exists e s', _deepFreezeValue 3 (VRef 1) freeze_inputs_state = Throw e s'
                   /\ ename e = "TypeError").
Proof.
  split.
  - destruct (deep_freeze_of_plain_object 3 0
                (mkObj KObject [] [("a", VNum 1)] false) "a" (VNum 1) []
                freeze_inputs_state eq_refl eq_refl eq_refl eq_refl eq_refl
                eq_refl eq_refl)
      as (s' & H & _).
    by exists s'.
  - destruct (deep_freeze_of_plain_object 3 1
                (mkObj KObject [] [("a", VNum 1); ("b", VNum 2)] false)
                "a" (VNum 1) [("b", VNum 2)]
                freeze_inputs_state eq_refl eq_refl eq_refl eq_refl eq_refl
                eq_refl eq_refl eq_refl)
      as (e & s' & H & He & _); [done|].
    by exists e, s'.
Defined.

Lemma rebaseline_clears_changed_witness :
  result (_changed 0 alice_42_state) = Some true
  /\ exists s1 s2,
       (v <- value_get 0 ;; _originalValue_set 0 v) alice_42_state = Ret tt s1
       /\ original_of (heap s1) 0 = VNum 42
       /\ _changed 0 s1 = Ret false s2.
Proof.
  split; [vm_compute; reflexivity|].
  destruct (rebaseline_clears_changed 0
              (mkObj (KField "Field") []
                 [("_name", VStr "Name"); ("_config", VRef 1);
                  ("_value", VNum 42); ("_originalValue_", VStr "Alice")] false)
              alice_42_state eq_refl eq_refl eq_refl)
    as (s1 & s2 & H1 & H2 & _ & H4).
  exists s1, s2. split; [exact H1|]. split; [rewrite H2; reflexivity | exact H4].
Defined.
